(** * OpenLeaf client: editing-session core

    A shallow embedding of the client-side state of the OpenLeaf editor
    (the zustand stores [editorStore] and [projectStore], the keyboard
    shortcut hook, the save handler of [MainLayout] and the comment
    highlight effect of [Editor]) together with the properties of the
    design document that concern them.

    Conventions.
    - JavaScript strings are [string]; [===] on strings is Leibniz
      equality, decided with [bool_decide].
    - [T | null] and [T | undefined] are [option T].
    - A plain object used as a dictionary ([Record<string, FileContent>],
      [localStorage]) is a [gmap string _] holding the object's own
      entries.  A lookup [o[k]] also finds what the object inherits from
      [Object.prototype]; for the buffers this changes the result of one
      function, [markFileSaved] on a path without a buffer, which
      [BufferObject] follows through the inherited names.
    - A zustand [set(fn)] call merges the partial state returned by [fn]
      into the store; it is written out as a record update.
    - Code that can throw returns a [Completion]; [try]/[catch] is
      [try_catch]. *)

From Stdlib Require Import ZArith Bool Ascii String.
From stdpp Require Import base option list strings gmap.

Local Open Scope string_scope.
Local Open Scope list_scope.

(** ** Exceptions *)

Inductive JsExn : Type :=
  | SyntaxError   (* JSON.parse on malformed text *)
  | RangeError    (* Text.line on an invalid line number, an empty mark *)
  | StorageError. (* localStorage access denied or quota exceeded *)

Inductive Completion (A : Type) : Type :=
  | Normal (a : A)
  | Throw (e : JsExn).
Arguments Normal {A} a.
Arguments Throw {A} e.

Definition cbind {A B} (c : Completion A) (k : A -> Completion B) : Completion B :=
  match c with
  | Normal a => k a
  | Throw e => Throw e
  end.

Definition try_catch {A} (body : Completion A) (handler : JsExn -> Completion A)
  : Completion A :=
  match body with
  | Normal a => Normal a
  | Throw e => handler e
  end.

#[global] Instance Completion_bind : MBind Completion :=
  fun A B k c => cbind c k.
#[global] Instance Completion_ret : MRet Completion := fun A a => Normal a.
#[global] Instance Completion_fmap : FMap Completion :=
  fun A B f c => cbind c (fun a => Normal (f a)).

(** Closed decidable goals (membership in a literal list and the like)
    are settled by evaluation. *)
Ltac decide_closed :=
  match goal with
  | |- ?P => apply (bool_decide_unpack P); vm_compute; exact I
  end.

Definition completes {A} (c : Completion A) : Prop := exists a, c = Normal a.

(** JavaScript truthiness of a string: every string but the empty one. *)
Definition truthy_str (s : string) : bool := negb (bool_decide (s = EmptyString)).

(** Truthiness of [string | null]. *)
Definition truthy_ostr (o : option string) : bool :=
  match o with
  | Some s => truthy_str s
  | None => false
  end.

(** Truthiness of an optional boolean field ([ctrl?: boolean]). *)
Definition truthy_obool (o : option bool) : bool := default false o.

(** ** editorStore *)

Module EditorStore.

Record CompileError := {
  file : string;
  line : option Z;
  message : string;
}.

Record FileContent := {
  content : string;
  originalContent : string;
  isDirty : bool;
}.

Record EditorState := {
  isCompiling : bool;
  isSaving : bool;
  pdfUrl : option string;
  compileErrors : list CompileError;
  compileWarnings : list CompileError;
  fileContents : gmap string FileContent;
}.

Definition initial : EditorState :=
  {| isCompiling := false; isSaving := false; pdfUrl := None;
     compileErrors := []; compileWarnings := []; fileContents := ∅ |}.

Definition set_fileContents (m : gmap string FileContent) (state : EditorState)
  : EditorState :=
  {| isCompiling := isCompiling state; isSaving := isSaving state;
     pdfUrl := pdfUrl state; compileErrors := compileErrors state;
     compileWarnings := compileWarnings state; fileContents := m |}.

Definition setSaving (b : bool) (state : EditorState) : EditorState :=
  {| isCompiling := isCompiling state; isSaving := b;
     pdfUrl := pdfUrl state; compileErrors := compileErrors state;
     compileWarnings := compileWarnings state;
     fileContents := fileContents state |}.

Definition setCompiling (b : bool) (state : EditorState) : EditorState :=
  {| isCompiling := b; isSaving := isSaving state;
     pdfUrl := pdfUrl state; compileErrors := compileErrors state;
     compileWarnings := compileWarnings state;
     fileContents := fileContents state |}.

(** [existing?.originalContent ?? content] *)
Definition originalContent_or (existing : option FileContent) (content : string)
  : string :=
  match existing with
  | Some b => originalContent b
  | None => content
  end.

Definition setFileContent (filePath content : string) (isOriginal : bool)
    (state : EditorState) : EditorState :=
  let existing := fileContents state !! filePath in
  if isOriginal then
    set_fileContents
      (<[filePath := {| content := content; originalContent := content;
                        isDirty := false |}]> (fileContents state))
      state
  else
    set_fileContents
      (<[filePath :=
           {| content := content;
              originalContent := originalContent_or existing content;
              isDirty :=
                bool_decide (content ≠ originalContent_or existing content) |}]>
         (fileContents state))
      state.

(** [markFileSaved] on the own entries of [fileContents]; what it does
    when [filePath] has no own entry and names something inherited from
    [Object.prototype] is in [BufferObject.markFileSaved]. *)
Definition markFileSaved (filePath : string) (state : EditorState) : EditorState :=
  match fileContents state !! filePath with
  | None => state
  | Some existing =>
      set_fileContents
        (<[filePath := {| content := content existing;
                          originalContent := content existing;
                          isDirty := false |}]> (fileContents state))
        state
  end.

Definition getFileContent (state : EditorState) (filePath : string) : option string :=
  content <$> fileContents state !! filePath.

Definition isFileDirty (state : EditorState) (filePath : string) : bool :=
  default false (isDirty <$> fileContents state !! filePath).

Definition hasUnsavedChanges (state : EditorState) : bool :=
  bool_decide (Exists (fun kv => isDirty kv.2 = true)
                 (map_to_list (fileContents state))).

(** The operations a buffer goes through. *)
Inductive BufferOp : Type :=
  | Load (filePath content : string)   (* setFileContent(path, c, true) *)
  | Edit (filePath content : string)   (* setFileContent(path, c) *)
  | MarkSaved (filePath : string).     (* markFileSaved(path) *)

Definition apply_op (op : BufferOp) (state : EditorState) : EditorState :=
  match op with
  | Load p c => setFileContent p c true state
  | Edit p c => setFileContent p c false state
  | MarkSaved p => markFileSaved p state
  end.

(** The store after each operation of [ops], in order. *)
Fixpoint trace (state : EditorState) (ops : list BufferOp) : list EditorState :=
  match ops with
  | [] => []
  | op :: ops' => apply_op op state :: trace (apply_op op state) ops'
  end.

(** The dirty flag of a buffer says exactly whether it differs from the
    last synchronized content. *)
Definition buffer_consistent (b : FileContent) : Prop :=
  isDirty b = true <-> content b ≠ originalContent b.

Definition store_consistent (state : EditorState) : Prop :=
  forall p b, fileContents state !! p = Some b -> buffer_consistent b.

End EditorStore.

(** ** editorStore: the buffers as a JavaScript object *)

Module BufferObject.

(** An entry of [fileContents] as [markFileSaved] can leave it: [content]
    and [originalContent] may be [undefined]. *)
Record Entry := {
  content : option string;
  originalContent : option string;
  isDirty : bool;
}.

(** [state.fileContents] is kept as its own entries, a
    [gmap string Entry]; it is created by an object literal, so its
    prototype is [Object.prototype]. These are the names an object
    inherits from it. *)
Definition Object_prototype_names : list string :=
  ["constructor"; "hasOwnProperty"; "isPrototypeOf"; "propertyIsEnumerable";
   "toLocaleString"; "toString"; "valueOf"; "__defineGetter__";
   "__defineSetter__"; "__lookupGetter__"; "__lookupSetter__"; "__proto__"].

(** The value of [o[k]]: the own entry, else the inherited member (a
    function, or for [__proto__] the prototype object), else
    [undefined]. *)
Inductive Member : Type :=
  | Own (e : Entry)
  | Inherited
  | Undefined.

Definition get (o : gmap string Entry) (k : string) : Member :=
  match o !! k with
  | Some e => Own e
  | None =>
      if bool_decide (k ∈ Object_prototype_names) then Inherited else Undefined
  end.

(** Objects and functions are truthy, [undefined] is not. *)
Definition truthy (m : Member) : bool :=
  match m with
  | Undefined => false
  | _ => true
  end.

(** [{ ...existing, originalContent: existing.content, isDirty: false }].
    An inherited member has no enumerable property of its own and no
    [content], so the entry made from it has neither content. *)
Definition saved_entry (existing : Member) : Entry :=
  match existing with
  | Own e => {| content := content e; originalContent := content e;
                isDirty := false |}
  | _ => {| content := None; originalContent := None; isDirty := false |}
  end.

(** [markFileSaved] on the buffers; the other fields of the store are not
    in the partial state it returns. *)
Definition markFileSaved (filePath : string) (o : gmap string Entry)
  : gmap string Entry :=
  let existing := get o filePath in
  if negb (truthy existing) then o
  else <[filePath := saved_entry existing]> o.

(** The buffers of the store of [EditorStore] as such an object: every
    entry has both contents. *)
Definition of_buffer (b : EditorStore.FileContent) : Entry :=
  {| content := Some (EditorStore.content b);
     originalContent := Some (EditorStore.originalContent b);
     isDirty := EditorStore.isDirty b |}.

Definition of_store (state : EditorStore.EditorState) : gmap string Entry :=
  of_buffer <$> EditorStore.fileContents state.

End BufferObject.

(** ** projectStore *)

(** Values produced by [JSON.parse] and consumed by [JSON.stringify]. *)
#[local] Set Warnings "-register-all".
Inductive JsValue : Type :=
  | JNull
  | JBool (b : bool)
  | JNumber (literal : string)
  | JString (s : string)
  | JArray (elements : list JsValue)
  | JObject (fields : list (string * JsValue)).

(** The browser's [localStorage]: a string-to-string dictionary, or a
    storage whose every access throws (blocked by the browser). *)
Inductive LocalStorage : Type :=
  | Available (items : gmap string string)
  | Denied.

Definition getItem (storage : LocalStorage) (key : string)
  : Completion (option string) :=
  match storage with
  | Available items => Normal (items !! key)
  | Denied => Throw StorageError
  end.

Definition setItem (storage : LocalStorage) (key value : string)
  : Completion LocalStorage :=
  match storage with
  | Available items => Normal (Available (<[key := value]> items))
  | Denied => Throw StorageError
  end.

(** A serializer and a small parser used to run the model on examples.
    The store is parametric in [JSON.parse] and [JSON.stringify]; these
    two are one possible instance: [show_json] escapes only the quote
    and the backslash, and [parse_literal] reads the three JSON literals
    and rejects every other text. *)
Fixpoint escape_json (s : string) : string :=
  match s with
  | EmptyString => EmptyString
  | String c rest =>
      if bool_decide (c = "034"%char) || bool_decide (c = "\"%char)
      then String "\"%char (String c (escape_json rest))
      else String c (escape_json rest)
  end.

Fixpoint show_json (v : JsValue) : string :=
  match v with
  | JNull => "null"
  | JBool true => "true"
  | JBool false => "false"
  | JNumber literal => literal
  | JString s => String "034"%char (escape_json s) +:+ String "034"%char EmptyString
  | JArray elements =>
      "[" +:+
      (fix go (l : list JsValue) : string :=
         match l with
         | [] => EmptyString
         | [x] => show_json x
         | x :: rest => show_json x +:+ "," +:+ go rest
         end) elements
      +:+ "]"
  | JObject fields =>
      "{" +:+
      (fix go (l : list (string * JsValue)) : string :=
         match l with
         | [] => EmptyString
         | [(k, x)] =>
             String "034"%char (escape_json k) +:+ String "034"%char ":"
             +:+ show_json x
         | (k, x) :: rest =>
             String "034"%char (escape_json k) +:+ String "034"%char ":"
             +:+ show_json x +:+ "," +:+ go rest
         end) fields
      +:+ "}"
  end.

Definition parse_literal (text : string) : Completion JsValue :=
  if bool_decide (text = "null") then Normal JNull
  else if bool_decide (text = "true") then Normal (JBool true)
  else if bool_decide (text = "false") then Normal (JBool false)
  else Throw SyntaxError.

Module ProjectStore.

Record File := {
  file_id : string;
  file_name : string;
  path : string;
  isFolder : bool;
}.

Record Project := {
  id : string;
  name : string;
  ownerId : string;
  files : list File;
}.

Record ProjectState := {
  currentProject : option Project;
  openFiles : list string;
  activeFile : option string;
}.

(** The zustand store together with the storage it persists to. *)
Record World := {
  state : ProjectState;
  localStorage : LocalStorage;
}.

Definition STORAGE_KEY : string := "openleaf-project-state".

(** [`${STORAGE_KEY}-${projectId}`] *)
Definition storage_key (projectId : string) : string :=
  STORAGE_KEY +:+ "-" +:+ projectId.

(** [{ openFiles, activeFile }] as a JSON value. *)
Definition stored_record (openFiles : list string) (activeFile : option string)
  : JsValue :=
  JObject [("openFiles", JArray (JString <$> openFiles));
           ("activeFile", from_option JString JNull activeFile)].

Section WithJSON.

(** [JSON.parse] throws a [SyntaxError] on text that is not JSON;
    [JSON.stringify] serializes a value. *)
Variable JSON_parse : string -> Completion JsValue.
Variable JSON_stringify : JsValue -> string.

(** The [try] block of [getStoredState]: [Some v] when it returns [v],
    [None] when control falls through to the end of the block. *)
Definition getStoredState_try (storage : LocalStorage) (projectId : string)
  : Completion (option JsValue) :=
  stored ← getItem storage (storage_key projectId);
  match stored with
  | Some text =>
      if truthy_str text then Some <$> JSON_parse text else Normal None
  | None => Normal None
  end.

Definition getStoredState (storage : LocalStorage) (projectId : string)
  : Completion JsValue :=
  returned ← try_catch (getStoredState_try storage projectId)
                       (fun _ => Normal None);
  match returned with
  | Some v => Normal v
  | None => Normal (stored_record [] None)
  end.

Definition saveState (projectId : string) (openFiles : list string)
    (activeFile : option string) (storage : LocalStorage)
  : Completion LocalStorage :=
  try_catch
    (setItem storage (storage_key projectId)
             (JSON_stringify (stored_record openFiles activeFile)))
    (fun _ => Normal storage).

Definition setFiles (files : list File) (w : World) : Completion World :=
  match currentProject (state w) with
  | None => Normal w
  | Some project =>
      let existingPaths : gset string := list_to_set (path <$> files) in
      let validOpenFiles :=
        filter (fun p => p ∈ existingPaths) (openFiles (state w)) in
      let validActiveFile :=
        match activeFile (state w) with
        | Some a =>
            if truthy_str a && bool_decide (a ∈ existingPaths)
            then Some a else None
        | None => None
        end in
      storage' ← saveState (id project) validOpenFiles validActiveFile
                           (localStorage w);
      Normal
        {| state :=
             {| currentProject :=
                  Some {| id := id project; name := name project;
                          ownerId := ownerId project; files := files |};
                openFiles := validOpenFiles;
                activeFile := validActiveFile |};
           localStorage := storage' |}
  end.

(** [if (state.currentProject) saveState(state.currentProject.id, ...)] *)
Definition saveState_if_project (project : option Project)
    (openFiles : list string) (activeFile : option string)
    (storage : LocalStorage) : Completion LocalStorage :=
  match project with
  | Some p => saveState (id p) openFiles activeFile storage
  | None => Normal storage
  end.

Definition openFile (path : string) (w : World) : Completion World :=
  let newOpenFiles :=
    if bool_decide (path ∈ openFiles (state w))
    then openFiles (state w)
    else openFiles (state w) ++ [path] in
  let newActiveFile := Some path in
  storage' ← saveState_if_project (currentProject (state w)) newOpenFiles
                                  newActiveFile (localStorage w);
  Normal {| state := {| currentProject := currentProject (state w);
                        openFiles := newOpenFiles;
                        activeFile := newActiveFile |};
            localStorage := storage' |}.

(** [newOpenFiles[newOpenFiles.length - 1] || null] *)
Definition last_or_null (l : list string) : option string :=
  match last l with
  | Some p => if truthy_str p then Some p else None
  | None => None
  end.

Definition closeFile (path : string) (w : World) : Completion World :=
  let newOpenFiles := filter (fun f => f ≠ path) (openFiles (state w)) in
  let newActiveFile :=
    if bool_decide (activeFile (state w) = Some path)
    then last_or_null newOpenFiles
    else activeFile (state w) in
  storage' ← saveState_if_project (currentProject (state w)) newOpenFiles
                                  newActiveFile (localStorage w);
  Normal {| state := {| currentProject := currentProject (state w);
                        openFiles := newOpenFiles;
                        activeFile := newActiveFile |};
            localStorage := storage' |}.

Definition setActiveFile (path : option string) (w : World)
  : Completion World :=
  storage' ← saveState_if_project (currentProject (state w))
                                  (openFiles (state w)) path
                                  (localStorage w);
  Normal {| state := {| currentProject := currentProject (state w);
                        openFiles := openFiles (state w);
                        activeFile := path |};
            localStorage := storage' |}.

(** The session operations of the store. *)
Inductive SessionOp : Type :=
  | OpenFile (path : string)
  | CloseFile (path : string)
  | SetActiveFile (path : option string)
  | SetFiles (files : list File).

Definition perform (op : SessionOp) (w : World) : Completion World :=
  match op with
  | OpenFile p => openFile p w
  | CloseFile p => closeFile p w
  | SetActiveFile p => setActiveFile p w
  | SetFiles fs => setFiles fs w
  end.

End WithJSON.

(** The session invariant: the active file, when set, is an open file. *)
Definition active_is_open (s : ProjectState) : Prop :=
  forall a, activeFile s = Some a -> a ∈ openFiles s.

(** [setActiveFile] keeps the invariant only for arguments that are
    [null] or an open file; the other operations always do. *)
Definition keeps_membership (op : SessionOp) (s : ProjectState) : Prop :=
  match op with
  | SetActiveFile (Some p) => p ∈ openFiles s
  | _ => True
  end.

(** A project with two files and a session with three tabs, for the
    examples. *)
Definition file_at (p : string) : File :=
  {| file_id := "id:" +:+ p; file_name := p; path := p; isFolder := false |}.

Definition example_project : Project :=
  {| id := "p1"; name := "paper"; ownerId := "u1";
     files := [file_at "a.tex"; file_at "b.tex"; file_at "c.tex"] |}.

Definition example_world (active : option string) : World :=
  {| state := {| currentProject := Some example_project;
                 openFiles := ["a.tex"; "b.tex"; "c.tex"];
                 activeFile := active |};
     localStorage := Available ∅ |}.

(** The entry of [l] immediately before the first occurrence of [p]. *)
Fixpoint entry_before (p : string) (l : list string) : option string :=
  match l with
  | [] => None
  | x :: rest =>
      match rest with
      | [] => None
      | y :: _ => if bool_decide (y = p) then Some x else entry_before p rest
      end
  end.

End ProjectStore.

(** ** The save handler of MainLayout *)

Module MainLayout.
Import EditorStore ProjectStore.

(** [handleSave] is an [async] function with one [await].  It is split
    at the [await]: [handleSave_request] runs up to the call of
    [filesApi.updateContent], and [handleSave_settle] runs when the
    promise settles.  Between the two, other events (edits among them)
    may update the store.  A [PendingRequest] holds what the suspended
    function keeps: the [activeFile] of its closure and the arguments
    of the request. *)
Record PendingRequest := {
  request_path : string;      (* activeFile *)
  request_fileId : string;    (* file.id *)
  request_content : string;   (* content, read before the await *)
}.

Definition handleSave_request (activeFile : option string)
    (currentProject : option Project) (editor : EditorState)
  : EditorState * option PendingRequest :=
  match activeFile, currentProject with
  | Some active, Some project =>
      if negb (truthy_str active) then (editor, None)
      else
        match getFileContent editor active with
        | None => (editor, None)
        | Some content =>
            match List.find (fun f => bool_decide (path f = active))
                            (files project) with
            | None => (editor, None)
            | Some file =>
                (setSaving true editor,
                 Some {| request_path := active;
                         request_fileId := file_id file;
                         request_content := content |})
            end
        end
  | _, _ => (editor, None)
  end.

(** [fulfilled = true]: the request succeeded, the [try] block goes on
    to [markFileSaved(activeFile)]; [false]: it was rejected and the
    [catch] block only logs.  [finally] resets the saving flag. *)
Definition handleSave_settle (fulfilled : bool) (pending : PendingRequest)
    (editor : EditorState) : EditorState :=
  setSaving false
    (if fulfilled then markFileSaved (request_path pending) editor
     else editor).

(** A save overtaken by an edit, on concrete contents: the buffer of
    main.tex is loaded, edited to "C1", saved, edited to "C2" while the
    request is in flight, and then the request is confirmed. *)
Definition race_editor0 : EditorState :=
  setFileContent "main.tex" "C1" false
    (setFileContent "main.tex" "C0" true initial).

Definition race_project : Project :=
  {| id := "p1"; name := "paper"; ownerId := "u1";
     files := [{| file_id := "f1"; file_name := "main.tex";
                  path := "main.tex"; isFolder := false |}] |}.

End MainLayout.

(** ** Keyboard shortcuts *)

Module Shortcuts.

(** [oid] is the identity of the JavaScript object: [indexOf] compares
    references, so two configs built separately differ in [oid] even
    when their fields agree.  [handler] names the closure to call. *)
Record ShortcutConfig := {
  oid : nat;
  key : string;
  ctrl : option bool;
  shift : option bool;
  alt : option bool;
  meta : option bool;
  handler : nat;
  description : string;
}.

#[global] Instance ShortcutConfig_eq_dec : EqDecision ShortcutConfig.
Proof. solve_decision. Defined.

Record KeyboardEvent := {
  event_key : string;
  ctrlKey : bool;
  shiftKey : bool;
  altKey : bool;
  metaKey : bool;
}.

(** What a key event did: the handlers called, in order, and whether
    [preventDefault] was called on the event. *)
Record Dispatch := {
  invoked : list nat;
  defaultPrevented : bool;
}.

(** [shortcuts.indexOf(config)] *)
Definition indexOf (config : ShortcutConfig) (shortcuts : list ShortcutConfig) : Z :=
  match list_find (fun c => c = config) shortcuts with
  | Some (i, _) => Z.of_nat i
  | None => (-1)%Z
  end.

(** The function returned by [registerShortcut(config)]. *)
Definition unregister (config : ShortcutConfig) (shortcuts : list ShortcutConfig)
  : list ShortcutConfig :=
  let index := indexOf config shortcuts in
  if bool_decide (index > -1)%Z
  then delete (Z.to_nat index) shortcuts   (* splice(index, 1) *)
  else shortcuts.

(** [registerShortcut]: the registry after the [push], and the
    function that removes the config again. *)
Definition registerShortcut (config : ShortcutConfig)
    (shortcuts : list ShortcutConfig)
  : list ShortcutConfig * (list ShortcutConfig -> list ShortcutConfig) :=
  (shortcuts ++ [config], unregister config).

Section WithLowerCase.

(** [String.prototype.toLowerCase] *)
Variable toLowerCase : string -> string.

Definition ctrlMatch (shortcut : ShortcutConfig) (e : KeyboardEvent) : bool :=
  if truthy_obool (ctrl shortcut)
  then ctrlKey e || metaKey e
  else negb (ctrlKey e) && negb (metaKey e).

Definition shiftMatch (shortcut : ShortcutConfig) (e : KeyboardEvent) : bool :=
  if truthy_obool (shift shortcut) then shiftKey e else negb (shiftKey e).

Definition altMatch (shortcut : ShortcutConfig) (e : KeyboardEvent) : bool :=
  if truthy_obool (alt shortcut) then altKey e else negb (altKey e).

(** The condition of the [if] in the loop of [handleKeyDown]. *)
Definition matches (e : KeyboardEvent) (shortcut : ShortcutConfig) : bool :=
  bool_decide (toLowerCase (event_key e) = toLowerCase (key shortcut))
  && ctrlMatch shortcut e && shiftMatch shortcut e && altMatch shortcut e.

(** [for (const shortcut of allShortcuts) { if (...) { ...; break; } }] *)
Fixpoint dispatch_loop (allShortcuts : list ShortcutConfig) (e : KeyboardEvent)
  : Dispatch :=
  match allShortcuts with
  | [] => {| invoked := []; defaultPrevented := false |}
  | shortcut :: rest =>
      if matches e shortcut
      then {| invoked := [handler shortcut]; defaultPrevented := true |}
      else dispatch_loop rest e
  end.

Definition handleKeyDown (shortcuts localShortcuts : list ShortcutConfig)
    (e : KeyboardEvent) : Dispatch :=
  let allShortcuts := shortcuts ++ localShortcuts in
  dispatch_loop allShortcuts e.

End WithLowerCase.

(** The modifier set of an event and the one a binding declares. *)
Definition event_modifiers (e : KeyboardEvent) : bool * bool * bool * bool :=
  (ctrlKey e, shiftKey e, altKey e, metaKey e).

Definition declared_modifiers (s : ShortcutConfig) : bool * bool * bool * bool :=
  (truthy_obool (ctrl s), truthy_obool (shift s), truthy_obool (alt s),
   truthy_obool (meta s)).

(** Lower-casing of the ASCII letters, for running the model on
    concrete keys. *)
Definition lower_ascii (c : Ascii.ascii) : Ascii.ascii :=
  let n := Ascii.nat_of_ascii c in
  if (65 <=? n)%nat && (n <=? 90)%nat then Ascii.ascii_of_nat (n + 32) else c.

Fixpoint ascii_toLowerCase (s : string) : string :=
  match s with
  | EmptyString => EmptyString
  | String c rest => String (lower_ascii c) (ascii_toLowerCase rest)
  end.

(** What the loop leaves when [shortcut] is the binding that fired. *)
Definition fired (shortcut : ShortcutConfig) : Dispatch :=
  {| invoked := [handler shortcut]; defaultPrevented := true |}.

(** Two bindings of Ctrl+S built separately, and key events, for the
    examples. *)
Definition save_binding (object handler : nat) : ShortcutConfig :=
  {| oid := object; key := "s"; ctrl := Some true; shift := None;
     alt := None; meta := None; handler := handler;
     description := "Save file" |}.

Definition key_event (k : string) (c s a m : bool) : KeyboardEvent :=
  {| event_key := k; ctrlKey := c; shiftKey := s; altKey := a; metaKey := m |}.

End Shortcuts.

(** ** The comment highlights of Editor *)

Module Editor.

Record Comment := {
  id : string;
  project_id : string;
  file_path : string;
  author_id : string;
  author_name : string;
  content : string;
  line_start : Z;
  line_end : Z;
  resolved : bool;
  created_at : string;
}.

(** The document of the editing widget, as its lines.  A document has
    at least one line (the empty document has one empty line). *)
Record Text := {
  first_line : string;
  more_lines : list string;
}.

Record Line := {
  from : Z;
  to : Z;
  number : Z;
  text : string;
}.

Record Highlight := {
  hl_from : Z;
  hl_to : Z;
  hl_id : string;
}.

Definition text_lines (doc : Text) : list string :=
  first_line doc :: more_lines doc.

(** [doc.lines] *)
Definition lines (doc : Text) : Z := Z.of_nat (length (text_lines doc)).

(** Offset of the first character of the line at index [i] (from 0):
    the lines before it, each followed by a line break. *)
Fixpoint offset_of_line (ls : list string) (i : nat) : Z :=
  match i, ls with
  | S i', l :: ls' => (Z.of_nat (String.length l) + 1 + offset_of_line ls' i')%Z
  | _, _ => 0%Z
  end.

(** [doc.line(n)], by the contract of the editing widget's document:
    lines are numbered from 1 to [doc.lines], and any other number
    throws a [RangeError] (the case the [catch] block of the effect is
    there for). *)
Definition doc_line (doc : Text) (n : Z) : Completion Line :=
  if bool_decide (n < 1 ∨ n > lines doc)%Z then Throw RangeError
  else
    match text_lines doc !! Z.to_nat (n - 1) with
    | Some t =>
        let start := offset_of_line (text_lines doc) (Z.to_nat (n - 1)) in
        Normal {| from := start;
                  to := (start + Z.of_nat (String.length t))%Z;
                  number := n; text := t |}
    | None => Throw RangeError
    end.

(** The body of the [try] block for one comment. *)
Definition comment_highlight (doc : Text) (comment : Comment)
  : Completion Highlight :=
  fromLine ← doc_line doc (Z.min (line_start comment) (lines doc));
  toLine ← doc_line doc (Z.min (line_end comment) (lines doc));
  Normal {| hl_from := from fromLine; hl_to := to toLine;
            hl_id := id comment |}.

(** The loop over the comments; [highlights] is the array built so far. *)
Fixpoint collect_highlights (doc : Text) (comments : list Comment)
    (highlights : list Highlight) : Completion (list Highlight) :=
  match comments with
  | [] => Normal highlights
  | comment :: rest =>
      if resolved comment then collect_highlights doc rest highlights
      else
        highlights' ←
          try_catch
            (h ← comment_highlight doc comment; Normal (highlights ++ [h]))
            (fun _ => Normal highlights);
        collect_highlights doc rest highlights'
  end.

(** A region that covers at least one character. *)
Definition nonempty_region (h : Highlight) : bool :=
  bool_decide (hl_from h < hl_to h)%Z.

(** [highlightMark.range(from, to)], by the contract of the editing
    widget's mark decorations: a mark may not be empty, and a range whose
    [from] is not below its [to] throws a [RangeError]. *)
Definition highlightMark_range (h : Highlight) : Completion Highlight :=
  if nonempty_region h then Normal h else Throw RangeError.

(** [effect.value.map(({ from, to }) => highlightMark.range(from, to))]
    in the [update] of [highlightField]: the first range that throws
    ends the map. *)
Fixpoint mark_ranges (hs : list Highlight) : Completion (list Highlight) :=
  match hs with
  | [] => Normal []
  | h :: rest =>
      r ← highlightMark_range h;
      rs ← mark_ranges rest;
      Normal (r :: rs)
  end.

(** [view.dispatch({ effects: setHighlights.of(highlights) })]: the
    transaction runs the [update] of [highlightField], which makes the
    decorations of the regions; [Decoration.set(decorations, true)]
    sorts them itself. What throws in [update] leaves [dispatch]. *)
Definition dispatch_setHighlights (highlights : list Highlight)
  : Completion (list Highlight) :=
  mark_ranges highlights.

(** The effect run when the comments change: nothing without a view,
    else the regions are built and, after the loop and outside its
    [try], dispatched to the view.  The result is the regions the view
    then decorates. *)
Definition highlights_effect (view : option Text) (comments : list Comment)
  : Completion (option (list Highlight)) :=
  match view with
  | None => Normal None
  | Some doc =>
      highlights ← collect_highlights doc comments [];
      shown ← dispatch_setHighlights highlights;
      Normal (Some shown)
  end.

(** A three-line document whose last line is not empty, and a comment on
    the given lines, for the examples. *)
Definition example_doc : Text :=
  {| first_line := "\section{Intro}"; more_lines := ["Hello"; "World"] |}.

Definition comment_on (i : string) (l1 l2 : Z) (r : bool) : Comment :=
  {| id := i; project_id := "p1"; file_path := "main.tex"; author_id := "u1";
     author_name := "Ada"; content := "check this"; line_start := l1;
     line_end := l2; resolved := r; created_at := "2024-01-01" |}.


End Editor.

(** ** More of the stores and components

    The rest of [editorStore] (the compile result and the persisted
    preview location), [themeStore], [commentsStore], the restore of a
    session by [setCurrentProject], and the pure parts of the components
    that use them. *)

(** [localStorage.removeItem] *)
Definition removeItem (storage : LocalStorage) (key : string)
  : Completion LocalStorage :=
  match storage with
  | Available items => Normal (Available (delete key items))
  | Denied => Throw StorageError
  end.

(** A parser for the texts [show_json] writes: the literals, strings
    with the two escapes of [escape_json], arrays and objects, with no
    white space and no numbers. Like [show_json] it is one instance of
    the [JSON.parse] parameter, used to run the model on examples. *)
Definition quote_char : ascii := "034"%char.
Definition backslash_char : ascii := "\"%char.

(** The text after an opening quote: the string's content and what
    follows the closing quote. *)
Fixpoint parse_string_body (s : string) : option (string * string) :=
  match s with
  | EmptyString => None
  | String c rest =>
      if bool_decide (c = quote_char) then Some (EmptyString, rest)
      else if bool_decide (c = backslash_char) then
        match rest with
        | String d rest' =>
            if bool_decide (d = quote_char) || bool_decide (d = backslash_char)
            then '(body, r) ← parse_string_body rest'; Some (String d body, r)
            else None
        | EmptyString => None
        end
      else '(body, r) ← parse_string_body rest; Some (String c body, r)
  end.

Fixpoint strip_prefix (p s : string) : option string :=
  match p, s with
  | EmptyString, _ => Some s
  | String a p', String b s' =>
      if bool_decide (a = b) then strip_prefix p' s' else None
  | String _ _, EmptyString => None
  end.

Fixpoint parse_elements (value : string -> option (JsValue * string))
    (n : nat) (s : string) : option (list JsValue * string) :=
  match n with
  | O => None
  | S n' =>
      '(v, r) ← value s;
      match r with
      | String c r' =>
          if bool_decide (c = ","%char)
          then '(vs, r'') ← parse_elements value n' r'; Some (v :: vs, r'')
          else if bool_decide (c = "]"%char) then Some ([v], r')
          else None
      | EmptyString => None
      end
  end.

Fixpoint parse_fields (value : string -> option (JsValue * string))
    (n : nat) (s : string) : option (list (string * JsValue) * string) :=
  match n with
  | O => None
  | S n' =>
      match s with
      | String q s1 =>
          if bool_decide (q = quote_char) then
            '(k, s2) ← parse_string_body s1;
            match s2 with
            | String colon s3 =>
                if bool_decide (colon = ":"%char) then
                  '(v, r) ← value s3;
                  match r with
                  | String c r' =>
                      if bool_decide (c = ","%char)
                      then '(fs, r'') ← parse_fields value n' r';
                           Some ((k, v) :: fs, r'')
                      else if bool_decide (c = "}"%char) then Some ([(k, v)], r')
                      else None
                  | EmptyString => None
                  end
                else None
            | EmptyString => None
            end
          else None
      | EmptyString => None
      end
  end.

Fixpoint parse_value (fuel : nat) (s : string) : option (JsValue * string) :=
  match fuel with
  | O => None
  | S fuel' =>
      match s with
      | EmptyString => None
      | String c rest =>
          if bool_decide (c = quote_char) then
            '(str, r) ← parse_string_body rest; Some (JString str, r)
          else if bool_decide (c = "["%char) then
            match strip_prefix "]" rest with
            | Some r => Some (JArray [], r)
            | None =>
                '(vs, r) ← parse_elements (parse_value fuel') fuel' rest;
                Some (JArray vs, r)
            end
          else if bool_decide (c = "{"%char) then
            match strip_prefix "}" rest with
            | Some r => Some (JObject [], r)
            | None =>
                '(fs, r) ← parse_fields (parse_value fuel') fuel' rest;
                Some (JObject fs, r)
            end
          else
            match strip_prefix "null" s, strip_prefix "true" s,
                  strip_prefix "false" s with
            | Some r, _, _ => Some (JNull, r)
            | _, Some r, _ => Some (JBool true, r)
            | _, _, Some r => Some (JBool false, r)
            | _, _, _ => None
            end
      end
  end.

Definition parse_json (text : string) : Completion JsValue :=
  match parse_value (S (String.length text)) text with
  | Some (v, EmptyString) => Normal v
  | _ => Throw SyntaxError
  end.

(** *** editorStore: the compile result and the persisted preview *)

Module PdfStore.
Import EditorStore.

(** The editor store together with the storage it persists to. *)
Record World := {
  editor : EditorState;
  localStorage : LocalStorage;
}.

Definition PDF_STORAGE_KEY : string := "openleaf-pdf-url".

(** [`${PDF_STORAGE_KEY}-${projectId}`] *)
Definition pdf_key (projectId : string) : string :=
  PDF_STORAGE_KEY +:+ "-" +:+ projectId.

Definition getStoredPdfUrl (storage : LocalStorage) (projectId : string)
  : Completion (option string) :=
  try_catch (getItem storage (pdf_key projectId)) (fun _ => Normal None).

Definition savePdfUrl (projectId : string) (pdfUrl : option string)
    (storage : LocalStorage) : Completion LocalStorage :=
  try_catch
    (match pdfUrl with
     | Some url =>
         if truthy_str url then setItem storage (pdf_key projectId) url
         else removeItem storage (pdf_key projectId)
     | None => removeItem storage (pdf_key projectId)
     end)
    (fun _ => Normal storage).

Definition set_compile (compiling : bool) (url : option string)
    (errors warnings : list CompileError) (state : EditorState) : EditorState :=
  {| isCompiling := compiling; isSaving := isSaving state; pdfUrl := url;
     compileErrors := errors; compileWarnings := warnings;
     fileContents := fileContents state |}.

Definition setCompileResult (success : bool) (pdfUrl : option string)
    (errors warnings : list CompileError) (projectId : option string)
    (w : World) : Completion World :=
  let newPdfUrl := if success then pdfUrl else None in
  storage' ←
    match projectId with
    | Some pid =>
        if truthy_str pid then savePdfUrl pid newPdfUrl (localStorage w)
        else Normal (localStorage w)
    | None => Normal (localStorage w)
    end;
  Normal {| editor := set_compile false newPdfUrl errors warnings (editor w);
            localStorage := storage' |}.

Definition clearCompileResult (w : World) : World :=
  {| editor := set_compile (isCompiling (editor w)) None [] [] (editor w);
     localStorage := localStorage w |}.

Definition restorePdfUrl (projectId : string) (w : World) : Completion World :=
  storedUrl ← getStoredPdfUrl (localStorage w) projectId;
  if truthy_ostr storedUrl
  then Normal {| editor :=
                   set_compile (isCompiling (editor w)) storedUrl
                     (compileErrors (editor w)) (compileWarnings (editor w))
                     (editor w);
                 localStorage := localStorage w |}
  else Normal w.

End PdfStore.

(** *** themeStore *)

Module ThemeStore.

Inductive Theme : Type := light | dark | system.

(** The string a theme is stored as. *)
Definition theme_text (t : Theme) : string :=
  match t with
  | light => "light"
  | dark => "dark"
  | system => "system"
  end.

Definition STORAGE_KEY : string := "openleaf-theme".

(** The store ([theme], [resolvedTheme]), the [dark] class of the
    document root, the storage, and the system preference
    ([prefers-color-scheme: dark]) that the browser reports. *)
Record World := {
  theme : Theme;
  resolvedTheme : Theme;
  darkClass : bool;
  localStorage : LocalStorage;
  prefersDark : bool;
}.

Definition getStoredTheme (storage : LocalStorage) : Completion Theme :=
  returned ←
    try_catch
      (stored ← getItem storage STORAGE_KEY;
       match stored with
       | Some text =>
           if bool_decide (text = "light") then Normal (Some light)
           else if bool_decide (text = "dark") then Normal (Some dark)
           else if bool_decide (text = "system") then Normal (Some system)
           else Normal None
       | None => Normal None
       end)
      (fun _ => Normal None);
  match returned with
  | Some t => Normal t
  | None => Normal system
  end.

Definition getSystemTheme (prefersDark : bool) : Theme :=
  if prefersDark then dark else light.

Definition resolveTheme (t : Theme) (prefersDark : bool) : Theme :=
  match t with
  | system => getSystemTheme prefersDark
  | _ => t
  end.

(** [applyTheme]: the root has the class [dark] exactly for the dark
    theme. *)
Definition applyTheme (resolved : Theme) : bool :=
  match resolved with
  | dark => true
  | _ => false
  end.

(** The creation of the store, in a browser. *)
Definition create (storage : LocalStorage) (prefers : bool) : Completion World :=
  initialTheme ← getStoredTheme storage;
  let initialResolved := resolveTheme initialTheme prefers in
  Normal {| theme := initialTheme; resolvedTheme := initialResolved;
            darkClass := applyTheme initialResolved;
            localStorage := storage; prefersDark := prefers |}.

Definition setTheme (t : Theme) (w : World) : Completion World :=
  storage' ← try_catch (setItem (localStorage w) STORAGE_KEY (theme_text t))
                       (fun _ => Normal (localStorage w));
  let resolved := resolveTheme t (prefersDark w) in
  Normal {| theme := t; resolvedTheme := resolved;
            darkClass := applyTheme resolved;
            localStorage := storage'; prefersDark := prefersDark w |}.

(** The listener of the system preference: the preference changes to
    [prefers], and the store follows it when the theme is [system]. *)
Definition systemThemeChanged (prefers : bool) (w : World) : World :=
  match theme w with
  | system =>
      let newResolved := getSystemTheme prefers in
      {| theme := theme w; resolvedTheme := newResolved;
         darkClass := applyTheme newResolved;
         localStorage := localStorage w; prefersDark := prefers |}
  | _ =>
      {| theme := theme w; resolvedTheme := resolvedTheme w;
         darkClass := darkClass w;
         localStorage := localStorage w; prefersDark := prefers |}
  end.

Inductive ThemeEvent : Type :=
  | SetTheme (t : Theme)
  | SystemChanged (prefers : bool).

Definition handle (ev : ThemeEvent) (w : World) : Completion World :=
  match ev with
  | SetTheme t => setTheme t w
  | SystemChanged p => Normal (systemThemeChanged p w)
  end.

Fixpoint run (evs : list ThemeEvent) (w : World) : Completion World :=
  match evs with
  | [] => Normal w
  | ev :: rest => w' ← handle ev w; run rest w'
  end.

(** What the page shows agrees with the store and the system. *)
Definition coherent (w : World) : Prop :=
  resolvedTheme w = resolveTheme (theme w) (prefersDark w)
  /\ darkClass w = applyTheme (resolvedTheme w)
  /\ resolvedTheme w <> system.

End ThemeStore.

(** *** projectStore: restoring the session of a project *)

Module ProjectRestore.
Import ProjectStore.

(** Reading the value that [getStoredState] returned as the record its
    type declares. [field] is the property access [value.name] on an
    object (the keys of a parsed object are distinct). *)
Definition field (name : string) (v : JsValue) : option JsValue :=
  match v with
  | JObject fields =>
      snd <$> List.find (fun kv => bool_decide (kv.1 = name)) fields
  | _ => None
  end.

Definition as_string (v : JsValue) : option string :=
  match v with
  | JString s => Some s
  | _ => None
  end.

Definition as_strings (v : JsValue) : option (list string) :=
  match v with
  | JArray elements => mapM as_string elements
  | _ => None
  end.

Definition as_string_or_null (v : JsValue) : option (option string) :=
  match v with
  | JString s => Some (Some s)
  | JNull => Some None
  | _ => None
  end.

Definition session_record (v : JsValue) : option (list string * option string) :=
  ofs ← field "openFiles" v ≫= as_strings;
  af ← field "activeFile" v ≫= as_string_or_null;
  Some (ofs, af).

Section WithJSON.

Variable JSON_parse : string -> Completion JsValue.

(** [setCurrentProject]. The result is [None] when the stored value is
    not a session record: the fields of the store would then hold
    values outside their declared types, which this model does not
    follow. *)
Definition setCurrentProject (project : option Project) (w : World)
  : Completion (option World) :=
  match project with
  | Some p =>
      stored ← getStoredState JSON_parse (localStorage w) (id p);
      Normal
        (match session_record stored with
         | Some (ofs, af) =>
             Some {| state := {| currentProject := Some p; openFiles := ofs;
                                 activeFile := af |};
                     localStorage := localStorage w |}
         | None => None
         end)
  | None =>
      Normal (Some {| state := {| currentProject := None; openFiles := [];
                                  activeFile := None |};
                      localStorage := localStorage w |})
  end.

End WithJSON.

End ProjectRestore.

(** *** commentsStore and the comment list of CommentsPanel *)

Module CommentsStore.
Import Editor.

Record Selection := {
  lineStart : Z;
  lineEnd : Z;
}.

Record CommentsState := {
  comments : list Comment;
  selectedCommentId : option string;
  isAddingComment : bool;
  pendingSelection : option Selection;
}.

(** [Partial<Comment>]: the fields that an update sets. *)
Record CommentUpdate := {
  set_id : option string;
  set_project_id : option string;
  set_file_path : option string;
  set_author_id : option string;
  set_author_name : option string;
  set_content : option string;
  set_line_start : option Z;
  set_line_end : option Z;
  set_resolved : option bool;
  set_created_at : option string;
}.

(** [{ ...c, ...updates }] *)
Definition apply_update (c : Comment) (updates : CommentUpdate) : Comment :=
  {| id := default (id c) (set_id updates);
     project_id := default (project_id c) (set_project_id updates);
     file_path := default (file_path c) (set_file_path updates);
     author_id := default (author_id c) (set_author_id updates);
     author_name := default (author_name c) (set_author_name updates);
     content := default (content c) (set_content updates);
     line_start := default (line_start c) (set_line_start updates);
     line_end := default (line_end c) (set_line_end updates);
     resolved := default (resolved c) (set_resolved updates);
     created_at := default (created_at c) (set_created_at updates) |}.

(** [{ resolved: true }] *)
Definition resolved_update : CommentUpdate :=
  {| set_id := None; set_project_id := None; set_file_path := None;
     set_author_id := None; set_author_name := None; set_content := None;
     set_line_start := None; set_line_end := None; set_resolved := Some true;
     set_created_at := None |}.

Definition initial : CommentsState :=
  {| comments := []; selectedCommentId := None; isAddingComment := false;
     pendingSelection := None |}.

Definition setComments (cs : list Comment) (s : CommentsState) : CommentsState :=
  {| comments := cs; selectedCommentId := selectedCommentId s;
     isAddingComment := isAddingComment s;
     pendingSelection := pendingSelection s |}.

Definition addComment (comment : Comment) (s : CommentsState) : CommentsState :=
  {| comments := comment :: comments s;
     selectedCommentId := selectedCommentId s;
     isAddingComment := isAddingComment s;
     pendingSelection := pendingSelection s |}.

Definition removeComment (i : string) (s : CommentsState) : CommentsState :=
  {| comments := filter (fun c => id c ≠ i) (comments s);
     selectedCommentId :=
       if bool_decide (selectedCommentId s = Some i) then None
       else selectedCommentId s;
     isAddingComment := isAddingComment s;
     pendingSelection := pendingSelection s |}.

Definition updateComment (i : string) (updates : CommentUpdate)
    (s : CommentsState) : CommentsState :=
  {| comments :=
       (fun c => if bool_decide (id c = i) then apply_update c updates else c)
         <$> comments s;
     selectedCommentId := selectedCommentId s;
     isAddingComment := isAddingComment s;
     pendingSelection := pendingSelection s |}.

Definition selectComment (i : option string) (s : CommentsState) : CommentsState :=
  {| comments := comments s; selectedCommentId := i;
     isAddingComment := isAddingComment s;
     pendingSelection := pendingSelection s |}.

(** The filter tabs of the panel. *)
Inductive Filter : Type := filter_all | filter_open | filter_resolved.

Definition shown (f : Filter) (c : Comment) : bool :=
  match f with
  | filter_open => negb (resolved c)
  | filter_resolved => resolved c
  | filter_all => true
  end.

Definition filteredComments (f : Filter) (cs : list Comment) : list Comment :=
  List.filter (shown f) cs.

(** The selection, if any, is the id of a comment of the list. *)
Definition selection_valid (s : CommentsState) : Prop :=
  forall i, selectedCommentId s = Some i ->
            exists c, c ∈ comments s /\ id c = i.

End CommentsStore.

(** *** Paths: the tab label and the parent folder *)

Module Paths.

Definition slash : ascii := "/"%char.

(** [s.split("/")] *)
Fixpoint split_slash (s : string) : list string :=
  match s with
  | EmptyString => [EmptyString]
  | String c rest =>
      if bool_decide (c = slash) then EmptyString :: split_slash rest
      else
        match split_slash rest with
        | part :: parts => String c part :: parts
        | [] => [String c EmptyString]
        end
  end.

(** [parts.join("/")] *)
Fixpoint join_slash (parts : list string) : string :=
  match parts with
  | [] => EmptyString
  | [p] => p
  | p :: rest => p +:+ String slash (join_slash rest)
  end.

(** [getFileName] of EditorTabs: [parts[parts.length - 1]], which is
    [undefined] only for an empty array. *)
Definition getFileName (path : string) : option string :=
  let parts := split_slash path in
  last parts.

(** [parts.slice(0, -1)] *)
Definition drop_last (parts : list string) : list string :=
  take (length parts - 1) parts.

(** [file.path.split("/").slice(0, -1).join("/")] of buildTree. *)
Definition parentPath (path : string) : string :=
  join_slash (drop_last (split_slash path)).

(** [pdfUrl.split("/").pop() || "document.pdf"] of the preview's
    download. *)
Definition download_filename (pdfUrl : string) : string :=
  match last (split_slash pdfUrl) with
  | Some name => if truthy_str name then name else "document.pdf"
  | None => "document.pdf"
  end.

(** Whether a string has a slash in it. *)
Fixpoint has_slash (s : string) : bool :=
  match s with
  | EmptyString => false
  | String c rest => bool_decide (c = slash) || has_slash rest
  end.

End Paths.

(** *** Editor: the save of the editing surface and the scroll to a
    selected comment *)

Module EditorActions.
Import EditorStore ProjectStore MainLayout Editor.

(** [handleSave] of Editor, up to its [await]; [fileId] is computed when
    the component renders. *)
Definition fileId_of (currentProject : option Project) (filePath : string)
  : option string :=
  match currentProject with
  | Some project =>
      file_id <$> List.find (fun f => bool_decide (path f = filePath))
                            (files project)
  | None => None
  end.

Definition handleSave_request (filePath : string)
    (currentProject : option Project) (editor : EditorState)
  : EditorState * option PendingRequest :=
  match fileId_of currentProject filePath with
  | Some fileId =>
      if negb (truthy_str fileId) then (editor, None)
      else
        match getFileContent editor filePath with
        | None => (editor, None)
        | Some content =>
            (setSaving true editor,
             Some {| request_path := filePath; request_fileId := fileId;
                     request_content := content |})
        end
  | None => (editor, None)
  end.

(** The effect that scrolls to the selected comment: the offset handed
    to [scrollIntoView], if any. *)
Definition scroll_effect (view : option Text) (selectedCommentId : option string)
    (comments : list Comment) : Completion (option Z) :=
  match view, selectedCommentId with
  | Some doc, Some selected =>
      if negb (truthy_str selected) then Normal None
      else
        match List.find (fun c => bool_decide (id c = selected)) comments with
        | None => Normal None
        | Some comment =>
            try_catch
              (l ← doc_line doc (line_start comment); Normal (Some (from l)))
              (fun _ => Normal None)
        end
  | _, _ => Normal None
  end.

End EditorActions.

(** *** Runs of buffer operations *)

Module EditorStoreRuns.
Import EditorStore.

(** The store after all of [ops]. *)
Definition run (ops : list BufferOp) (state : EditorState) : EditorState :=
  foldl (fun s op => apply_op op s) state ops.

(** The operations that replace the synchronized content of [p]: a load
    of [p] and [markFileSaved(p)]. *)
Definition resyncs (p : string) (op : BufferOp) : Prop :=
  match op with
  | Load q _ => q = p
  | MarkSaved q => q = p
  | Edit _ _ => False
  end.

End EditorStoreRuns.

(** * Properties *)

(** ** editorStore: dirty tracking *)

Module EditorStoreFacts.
Import EditorStore.

Lemma fileContents_set m st : fileContents (set_fileContents m st) = m.
Proof. reflexivity. Qed.

Lemma fileContents_setSaving b st :
  fileContents (setSaving b st) = fileContents st.
Proof. reflexivity. Qed.

Lemma loaded_buffer_consistent c :
  buffer_consistent {| content := c; originalContent := c; isDirty := false |}.
Proof. split; simpl; [discriminate | congruence]. Qed.

Lemma edited_buffer_consistent c o :
  buffer_consistent
    {| content := c; originalContent := o; isDirty := bool_decide (c ≠ o) |}.
Proof. unfold buffer_consistent; simpl. apply bool_decide_eq_true. Qed.

Lemma insert_consistent p b st :
  buffer_consistent b ->
  store_consistent st ->
  store_consistent (set_fileContents (<[p := b]> (fileContents st)) st).
Proof.
  intros Hb Hst q b'. rewrite fileContents_set, lookup_insert.
  case_decide; [intros [= <-]; exact Hb | apply Hst].
Qed.

Lemma setFileContent_consistent p c isOriginal st :
  store_consistent st -> store_consistent (setFileContent p c isOriginal st).
Proof.
  intros Hst. unfold setFileContent. destruct isOriginal.
  - apply insert_consistent; [apply loaded_buffer_consistent | exact Hst].
  - apply insert_consistent; [apply edited_buffer_consistent | exact Hst].
Qed.

Lemma markFileSaved_consistent p st :
  store_consistent st -> store_consistent (markFileSaved p st).
Proof.
  intros Hst. unfold markFileSaved.
  destruct (fileContents st !! p) as [existing|]; [|exact Hst].
  apply insert_consistent; [apply loaded_buffer_consistent | exact Hst].
Qed.

Lemma apply_op_consistent op st :
  store_consistent st -> store_consistent (apply_op op st).
Proof.
  intros Hst. destruct op as [p c|p c|p].
  - exact (setFileContent_consistent p c true st Hst).
  - exact (setFileContent_consistent p c false st Hst).
  - exact (markFileSaved_consistent p st Hst).
Qed.

Lemma initial_consistent : store_consistent initial.
Proof. intros p b. simpl. rewrite lookup_empty. discriminate. Qed.

Lemma trace_consistent ops : forall st,
  store_consistent st -> Forall store_consistent (trace st ops).
Proof.
  induction ops as [|op ops IH]; intros st Hst; simpl; constructor.
  - by apply apply_op_consistent.
  - by apply IH, apply_op_consistent.
Qed.

(** The buffer an operation writes is consistent whatever the store
    held before: the flag is recomputed, not carried over. *)
Lemma setFileContent_written_consistent p c isOriginal st :
  exists b, fileContents (setFileContent p c isOriginal st) !! p = Some b
            /\ content b = c /\ buffer_consistent b.
Proof.
  unfold setFileContent. destruct isOriginal; rewrite fileContents_set;
    rewrite lookup_insert_eq; eexists; (split; [reflexivity|]); simpl;
    (split; [reflexivity|]).
  - apply loaded_buffer_consistent.
  - apply edited_buffer_consistent.
Qed.

(** C2. Starting from the empty store, after every operation of any
    sequence of loads, edits and markFileSaved calls, on any paths,
    each buffer's [isDirty] is true exactly when its [content] differs
    from its [originalContent]. *)
Theorem isDirty_iff_content_differs (ops : list BufferOp) :
  Forall store_consistent (trace initial ops).
Proof. apply trace_consistent, initial_consistent. Qed.

End EditorStoreFacts.

(** ** editorStore: markFileSaved on the buffers as an object *)

Module BufferObjectFacts.
Import BufferObject.

Lemma insert_without_entry_differs
    (o : gmap string Entry) (p : string) (e : Entry) :
  o !! p = None -> <[p := e]> o ≠ o.
Proof.
  intros Hnone Heq.
  assert (Hsome : <[p := e]> o !! p = Some e) by apply lookup_insert_eq.
  rewrite Heq in Hsome. congruence.
Qed.

(** Where the path has a buffer, or is not a name inherited from
    [Object.prototype], [markFileSaved] on the object is
    [EditorStore.markFileSaved] on the own entries. *)
Lemma markFileSaved_own_entries (st : EditorStore.EditorState) (p : string) :
  is_Some (EditorStore.fileContents st !! p) \/ p ∉ Object_prototype_names ->
  markFileSaved p (of_store st) = of_store (EditorStore.markFileSaved p st).
Proof.
  intros Hp. unfold markFileSaved, get, of_store, EditorStore.markFileSaved.
  rewrite lookup_fmap.
  destruct (EditorStore.fileContents st !! p) as [b|] eqn:Hb; simpl.
  - by rewrite fmap_insert.
  - destruct Hp as [[b Hsome]|Hp]; [discriminate|].
    by rewrite (bool_decide_eq_false_2 _ Hp).
Qed.

(** C10. [markFileSaved] on a path with no buffer. When the path is not
    a name inherited from [Object.prototype] the guard returns the
    buffers as they are. When it is one ([constructor], [toString],
    ...), the lookup finds the inherited member, the guard does not
    fire, and an entry without content is written for the path: the
    buffers are no longer the same. *)
Theorem markFileSaved_unloaded_path (o : gmap string Entry) (p : string) :
  o !! p = None ->
  (p ∉ Object_prototype_names -> markFileSaved p o = o)
  /\ (p ∈ Object_prototype_names ->
      markFileSaved p o
      = <[p := {| content := None; originalContent := None;
                  isDirty := false |}]> o
      /\ markFileSaved p o !! p
         = Some {| content := None; originalContent := None;
                   isDirty := false |}
      /\ markFileSaved p o ≠ o).
Proof.
  intros Hnone. unfold markFileSaved, get. rewrite Hnone. split; intros Hp.
  - by rewrite (bool_decide_eq_false_2 _ Hp).
  - rewrite (bool_decide_eq_true_2 _ Hp). simpl.
    split; [reflexivity|]. split; [by rewrite lookup_insert_eq|].
    by apply insert_without_entry_differs.
Qed.

Lemma markFileSaved_unloaded_path_witness :
  let o : gmap string Entry := ∅ in
  let p := "constructor" in
  o !! p = None
  /\ (p ∉ Object_prototype_names -> markFileSaved p o = o)
  /\ (p ∈ Object_prototype_names ->
      markFileSaved p o
      = <[p := {| content := None; originalContent := None;
                  isDirty := false |}]> o
      /\ markFileSaved p o !! p
         = Some {| content := None; originalContent := None;
                   isDirty := false |}
      /\ markFileSaved p o ≠ o).
Proof.
  split; [reflexivity|].
  exact (markFileSaved_unloaded_path ∅ "constructor" eq_refl).
Defined.

(** On the store as it starts, with no buffer at all,
    [markFileSaved("constructor")] creates a buffer. *)
Example markFileSaved_constructor_example :
  "constructor" ∈ Object_prototype_names
  /\ markFileSaved "constructor" (of_store EditorStore.initial)
        !! "constructor"
     = Some {| content := None; originalContent := None; isDirty := false |}.
Proof. split; [decide_closed | vm_compute; reflexivity]. Qed.

End BufferObjectFacts.

(** ** MainLayout: a save overtaken by an edit *)

Module MainLayoutFacts.
Import EditorStore ProjectStore MainLayout.

Lemma handleSave_request_pending activeFile project editor editor1 pending :
  handleSave_request activeFile project editor = (editor1, Some pending) ->
  activeFile = Some (request_path pending)
  /\ getFileContent editor (request_path pending) = Some (request_content pending)
  /\ editor1 = setSaving true editor.
Proof.
  unfold handleSave_request.
  destruct activeFile as [active|]; [|discriminate].
  destruct project as [proj|]; [|discriminate].
  destruct (truthy_str active); simpl; [|discriminate].
  destruct (getFileContent editor active) as [c|] eqn:Hc; [|discriminate].
  destruct (List.find _ (files proj)) as [f|]; [|discriminate].
  intros [= <- <-]. simpl. auto.
Qed.

(** C1, counterexample. After the confirmation the buffer holds "C2"
    but is not dirty: the confirmation marked it saved. *)
Lemma stale_confirmation_counterexample :
  exists editor1 pending,
    handleSave_request (Some "main.tex") (Some race_project) race_editor0
      = (editor1, Some pending)
    /\ request_content pending = "C1"
    /\ let editor3 :=
         handleSave_settle true pending
           (setFileContent "main.tex" "C2" false editor1) in
       getFileContent editor3 "main.tex" = Some "C2"
       /\ isFileDirty editor3 "main.tex" = false
       /\ ~ (isFileDirty editor3 "main.tex" = true
             /\ getFileContent editor3 "main.tex" = Some "C2").
Proof.
  eexists _, _. split; [vm_compute; reflexivity|].
  split; [reflexivity|]. simpl.
  split; [vm_compute; reflexivity|].
  split; [vm_compute; reflexivity|].
  intros [Hdirty _]. vm_compute in Hdirty. discriminate.
Qed.

(** C1, amended. When a save is requested for a buffer holding [C1]
    and the buffer is edited to [C2] before the confirmation, then
    after the confirmation the buffer still holds [C2], but it is
    marked saved: [originalContent] is [C2] and [isDirty] is false.
    The request carried [C1]. The confirmation calls [markFileSaved]
    without comparing the buffer to the content that was sent. *)
Theorem confirmation_marks_saved_after_edit
    (activeFile : option string) (project : option Project)
    (editor editor1 : EditorState) (pending : PendingRequest)
    (C1 C2 : string) :
  getFileContent editor (request_path pending) = Some C1 ->
  handleSave_request activeFile project editor = (editor1, Some pending) ->
  let editor2 := setFileContent (request_path pending) C2 false editor1 in
  let editor3 := handleSave_settle true pending editor2 in
  request_content pending = C1
  /\ fileContents editor3 !! request_path pending
     = Some {| content := C2; originalContent := C2; isDirty := false |}
  /\ isFileDirty editor3 (request_path pending) = false
  /\ isSaving editor3 = false.
Proof.
  intros HC1 Hreq.
  destruct (handleSave_request_pending _ _ _ _ _ Hreq) as (_ & Hc & ->).
  intros editor2 editor3. split; [congruence|].
  assert (Hbuf : fileContents editor3 !! request_path pending
                 = Some {| content := C2; originalContent := C2;
                           isDirty := false |}).
  { subst editor3 editor2. unfold handleSave_settle, markFileSaved.
    destruct (EditorStoreFacts.setFileContent_written_consistent
                (request_path pending) C2 false (setSaving true editor))
      as (b & Hb & Hcb & _).
    rewrite EditorStoreFacts.fileContents_setSaving, Hb.
    rewrite EditorStoreFacts.fileContents_set, lookup_insert_eq.
    by rewrite Hcb. }
  split; [exact Hbuf|]. split; [|reflexivity].
  unfold isFileDirty. by rewrite Hbuf.
Qed.

Lemma confirmation_marks_saved_after_edit_witness :
  let pending := {| request_path := "main.tex"; request_fileId := "f1";
                    request_content := "C1" |} in
  let editor1 := setSaving true race_editor0 in
  getFileContent race_editor0 (request_path pending) = Some "C1"
  /\ handleSave_request (Some "main.tex") (Some race_project) race_editor0
     = (editor1, Some pending)
  /\ let editor3 :=
       handleSave_settle true pending
         (setFileContent (request_path pending) "C2" false editor1) in
     request_content pending = "C1"
     /\ fileContents editor3 !! request_path pending
        = Some {| content := "C2"; originalContent := "C2"; isDirty := false |}
     /\ isFileDirty editor3 (request_path pending) = false
     /\ isSaving editor3 = false.
Proof.
  assert (Hc : getFileContent race_editor0 "main.tex" = Some "C1")
    by (vm_compute; reflexivity).
  assert (Hr : handleSave_request (Some "main.tex") (Some race_project)
                 race_editor0
               = (setSaving true race_editor0,
                  Some {| request_path := "main.tex"; request_fileId := "f1";
                          request_content := "C1" |}))
    by (vm_compute; reflexivity).
  split; [exact Hc|]. split; [exact Hr|].
  exact (confirmation_marks_saved_after_edit (Some "main.tex")
           (Some race_project) race_editor0 (setSaving true race_editor0)
           {| request_path := "main.tex"; request_fileId := "f1";
              request_content := "C1" |} "C1" "C2" Hc Hr).
Defined.

End MainLayoutFacts.

(** ** projectStore: open files and the active file *)

Module ProjectStoreFacts.
Import ProjectStore.

Section WithJSON.

Variable JSON_parse : string -> Completion JsValue.
Variable JSON_stringify : JsValue -> string.

Lemma saveState_completes projectId ofs af storage :
  completes (saveState JSON_stringify projectId ofs af storage).
Proof. unfold completes, saveState. destruct storage; simpl; eauto. Qed.

Lemma saveState_if_project_completes project ofs af storage :
  completes (saveState_if_project JSON_stringify project ofs af storage).
Proof.
  destruct project; simpl; [apply saveState_completes|].
  by eexists.
Qed.

Lemma setFiles_no_project files w :
  currentProject (state w) = None ->
  setFiles JSON_stringify files w = Normal w.
Proof. intros H. unfold setFiles. by rewrite H. Qed.

Lemma setFiles_state files w project :
  currentProject (state w) = Some project ->
  exists w', setFiles JSON_stringify files w = Normal w'
    /\ openFiles (state w')
       = filter (fun p => p ∈ (list_to_set (path <$> files) : gset string))
                (openFiles (state w))
    /\ activeFile (state w')
       = match activeFile (state w) with
         | Some a =>
             if truthy_str a
                && bool_decide (a ∈ (list_to_set (path <$> files) : gset string))
             then Some a else None
         | None => None
         end.
Proof.
  intros Hp. unfold setFiles. rewrite Hp.
  match goal with
  | |- context [saveState ?f ?i ?o ?a ?s] =>
      destruct (saveState_completes i o a s) as [s' ->]
  end.
  eexists. split; [reflexivity|]. simpl. auto.
Qed.

Lemma openFile_state p w :
  exists w', openFile JSON_stringify p w = Normal w'
    /\ openFiles (state w')
       = (if bool_decide (p ∈ openFiles (state w)) then openFiles (state w)
          else openFiles (state w) ++ [p])
    /\ activeFile (state w') = Some p.
Proof.
  unfold openFile.
  match goal with
  | |- context [saveState_if_project ?f ?i ?o ?a ?s] =>
      destruct (saveState_if_project_completes i o a s) as [s' ->]
  end.
  eexists. split; [reflexivity|]. simpl. auto.
Qed.

Lemma closeFile_state p w :
  exists w', closeFile JSON_stringify p w = Normal w'
    /\ openFiles (state w') = filter (fun f => f ≠ p) (openFiles (state w))
    /\ activeFile (state w')
       = (if bool_decide (activeFile (state w) = Some p)
          then last_or_null (filter (fun f => f ≠ p) (openFiles (state w)))
          else activeFile (state w)).
Proof.
  unfold closeFile.
  match goal with
  | |- context [saveState_if_project ?f ?i ?o ?a ?s] =>
      destruct (saveState_if_project_completes i o a s) as [s' ->]
  end.
  eexists. split; [reflexivity|]. simpl. auto.
Qed.

Lemma setActiveFile_state p w :
  exists w', setActiveFile JSON_stringify p w = Normal w'
    /\ openFiles (state w') = openFiles (state w)
    /\ activeFile (state w') = p.
Proof.
  unfold setActiveFile.
  match goal with
  | |- context [saveState_if_project ?f ?i ?o ?a ?s] =>
      destruct (saveState_if_project_completes i o a s) as [s' ->]
  end.
  eexists. split; [reflexivity|]. simpl. auto.
Qed.

Lemma last_or_null_elem_of l q : last_or_null l = Some q -> q ∈ l.
Proof.
  unfold last_or_null. destruct (last l) as [x|] eqn:Hl; [|discriminate].
  destruct (truthy_str x); [|discriminate].
  intros [= <-]. by apply last_Some_elem_of.
Qed.

(** C3, amended. With a current project set, a [setFiles] call whose
    paths exclude the active file keeps exactly the open files that
    are among the paths, in their previous order, and sets
    [activeFile] to none, also when open files remain. *)
Theorem setFiles_drops_missing_active
    (files : list File) (w : World) (project : Project) :
  currentProject (state w) = Some project ->
  (forall a, activeFile (state w) = Some a -> a ∉ path <$> files) ->
  exists w', setFiles JSON_stringify files w = Normal w'
    /\ openFiles (state w')
       = filter (fun p => p ∈ path <$> files) (openFiles (state w))
    /\ (openFiles (state w')) `sublist_of` (openFiles (state w))
    /\ activeFile (state w') = None.
Proof.
  intros Hp Hex.
  destruct (setFiles_state files w project Hp) as (w' & Hw & Hof & Haf).
  exists w'. split; [exact Hw|].
  assert (Hfilter : openFiles (state w')
            = filter (fun p => p ∈ path <$> files) (openFiles (state w))).
  { rewrite Hof. apply list_filter_iff. intros x.
    apply elem_of_list_to_set. }
  split; [exact Hfilter|]. split.
  - rewrite Hfilter. apply sublist_filter.
  - rewrite Haf. destruct (activeFile (state w)) as [a|]; [|reflexivity].
    case_bool_decide as Hin; [|by rewrite andb_false_r].
    exfalso. apply (Hex a eq_refl). by apply elem_of_list_to_set in Hin.
Qed.

(** C4, amended. [closeFile(path)] removes [path] from [openFiles]
    and keeps the order of the others. When [path] was active, the
    new active file is the last entry of the remaining [openFiles]
    (none when nothing remains, or when that entry is the empty
    string); when it was not, [activeFile] is unchanged. *)
Theorem closeFile_active_becomes_last (path : string) (w : World) :
  exists w', closeFile JSON_stringify path w = Normal w'
    /\ openFiles (state w') = filter (fun f => f ≠ path) (openFiles (state w))
    /\ (path ∉ openFiles (state w'))
    /\ (activeFile (state w) = Some path ->
        (openFiles (state w') = [] -> activeFile (state w') = None)
        /\ (forall q, last (openFiles (state w')) = Some q ->
              activeFile (state w')
              = if bool_decide (q = EmptyString) then None else Some q))
    /\ (activeFile (state w) ≠ Some path ->
        activeFile (state w') = activeFile (state w)).
Proof.
  destruct (closeFile_state path w) as (w' & Hw & Hof & Haf).
  exists w'. split; [exact Hw|]. split; [exact Hof|]. split.
  { rewrite Hof, list_elem_of_filter. tauto. }
  split.
  - intros Hact. rewrite Haf, (bool_decide_eq_true_2 _ Hact).
    rewrite <- Hof. unfold last_or_null. split.
    + intros ->. reflexivity.
    + intros q ->. unfold truthy_str.
      destruct (bool_decide (q = EmptyString)); reflexivity.
  - intros Hact. by rewrite Haf, (bool_decide_eq_false_2 _ Hact).
Qed.

(** C5, amended. [setActiveFile(path)] sets [activeFile] to [path]
    and leaves [openFiles] as it is, with no membership test. Every
    session operation keeps the invariant that the active file is an
    open file, provided the argument of [setActiveFile] is none or
    an open file. *)
Theorem active_is_open_preserved (op : SessionOp) (w : World) :
  (forall p, exists w', setActiveFile JSON_stringify p w = Normal w'
       /\ activeFile (state w') = p
       /\ openFiles (state w') = openFiles (state w))
  /\ (active_is_open (state w) ->
      keeps_membership op (state w) ->
      exists w', perform JSON_stringify op w = Normal w'
        /\ active_is_open (state w')).
Proof.
  split.
  { intros p. destruct (setActiveFile_state p w) as (w' & Hw & Hof & Haf).
    exists w'. auto. }
  intros Hinv Hok. destruct op as [p|p|p|files]; simpl.
  - destruct (openFile_state p w) as (w' & Hw & Hof & Haf).
    exists w'. split; [exact Hw|].
    intros a. rewrite Haf, Hof. intros [= <-].
    case_bool_decide; [done|]. apply elem_of_app. right. by left.
  - destruct (closeFile_state p w) as (w' & Hw & Hof & Haf).
    exists w'. split; [exact Hw|].
    intros a. rewrite Haf, Hof. case_bool_decide as Hact.
    + apply last_or_null_elem_of.
    + intros Ha. apply list_elem_of_filter. split; [congruence|].
      by apply Hinv.
  - destruct (setActiveFile_state p w) as (w' & Hw & Hof & Haf).
    exists w'. split; [exact Hw|].
    intros a. rewrite Haf, Hof. intros ->. exact Hok.
  - destruct (currentProject (state w)) as [project|] eqn:Hp.
    + destruct (setFiles_state files w project Hp) as (w' & Hw & Hof & Haf).
      exists w'. split; [exact Hw|].
      intros a. rewrite Haf, Hof.
      destruct (activeFile (state w)) as [a'|] eqn:Ha; [|discriminate].
      destruct (truthy_str a'); simpl; [|discriminate].
      case_bool_decide as Hin; [|discriminate].
      intros [= <-]. apply list_elem_of_filter. split; [exact Hin|].
      by apply Hinv.
    + exists w. split; [by apply setFiles_no_project | exact Hinv].
Qed.

Lemma getStoredState_completes storage projectId :
  completes (getStoredState JSON_parse storage projectId).
Proof.
  unfold completes, getStoredState, getStoredState_try.
  destruct storage as [items|]; simpl; [|eauto].
  destruct (items !! storage_key projectId) as [text|]; simpl; [|eauto].
  destruct (truthy_str text); simpl; [|eauto].
  destruct (JSON_parse text); simpl; eauto.
Qed.

(** C9. When the persisted entry of a project is absent, or holds a
    text that [JSON.parse] rejects, [getStoredState] returns the
    empty record (no open files, no active file) and does not
    throw. *)
Theorem getStoredState_absent_or_unparseable
    (storage : LocalStorage) (projectId : string) :
  (getItem storage (storage_key projectId) = Normal None
   \/ exists text e,
        getItem storage (storage_key projectId) = Normal (Some text)
        /\ JSON_parse text = Throw e) ->
  getStoredState JSON_parse storage projectId
  = Normal (JObject [("openFiles", JArray []); ("activeFile", JNull)]).
Proof.
  unfold getStoredState, getStoredState_try.
  intros [-> | (text & e & -> & Hparse)]; simpl; [reflexivity|].
  destruct (truthy_str text); simpl; [|reflexivity].
  rewrite Hparse. reflexivity.
Qed.

End WithJSON.

Lemma example_active_is_open a :
  a ∈ ["a.tex"; "b.tex"; "c.tex"] ->
  active_is_open (state (example_world (Some a))).
Proof. intros Ha a' [= <-]. exact Ha. Qed.

Lemma setFiles_drops_missing_active_witness :
  let w := example_world (Some "b.tex") in
  let files := [file_at "a.tex"; file_at "c.tex"] in
  currentProject (state w) = Some example_project
  /\ (forall a, activeFile (state w) = Some a -> a ∉ path <$> files)
  /\ exists w', setFiles show_json files w = Normal w'
       /\ openFiles (state w')
          = filter (fun p => p ∈ path <$> files) (openFiles (state w))
       /\ (openFiles (state w')) `sublist_of` (openFiles (state w))
       /\ activeFile (state w') = None.
Proof.
  assert (Hex : forall a, activeFile (state (example_world (Some "b.tex"))) = Some a ->
                  a ∉ path <$> [file_at "a.tex"; file_at "c.tex"]).
  { intros a [= <-]. simpl. decide_closed. }
  split; [reflexivity|]. split; [exact Hex|].
  exact (setFiles_drops_missing_active show_json
           [file_at "a.tex"; file_at "c.tex"]
           (example_world (Some "b.tex")) example_project eq_refl Hex).
Defined.

(** C3, counterexample. b.tex is active and is dropped from the file
    listing while a.tex and c.tex stay open: the active file becomes
    none, not an entry of the remaining open files. *)
Lemma setFiles_active_counterexample :
  let w := example_world (Some "b.tex") in
  let files := [file_at "a.tex"; file_at "c.tex"] in
  ("b.tex" ∉ path <$> files)
  /\ exists w', setFiles show_json files w = Normal w'
       /\ openFiles (state w') = ["a.tex"; "c.tex"]
       /\ activeFile (state w') = None
       /\ ~ (exists p, p ∈ openFiles (state w')
                       /\ activeFile (state w') = Some p).
Proof.
  simpl. split; [decide_closed|].
  eexists. split; [vm_compute; reflexivity|]. simpl.
  split; [reflexivity|]. split; [reflexivity|].
  intros (p & _ & Hp). discriminate.
Qed.

(** C4, counterexample. Closing the active tab b.tex of a.tex, b.tex,
    c.tex activates c.tex, the last remaining tab, and not a.tex, the
    tab before b.tex. *)
Lemma closeFile_active_counterexample :
  let w := example_world (Some "b.tex") in
  entry_before "b.tex" (openFiles (state w)) = Some "a.tex"
  /\ exists w', closeFile show_json "b.tex" w = Normal w'
       /\ openFiles (state w') = ["a.tex"; "c.tex"]
       /\ activeFile (state w') = Some "c.tex"
       /\ activeFile (state w') ≠ entry_before "b.tex" (openFiles (state w)).
Proof.
  simpl. split; [reflexivity|].
  eexists. split; [vm_compute; reflexivity|]. simpl.
  split; [reflexivity|]. split; [reflexivity|]. discriminate.
Qed.

(** C5, counterexample. [setActiveFile] with a path that is not open
    is not a no-op: the path becomes the active file, and the active
    file is then not an open file. *)
Lemma setActiveFile_nonmember_counterexample :
  let w := example_world (Some "a.tex") in
  active_is_open (state w)
  /\ ("ghost.tex" ∉ openFiles (state w))
  /\ exists w', setActiveFile show_json (Some "ghost.tex") w = Normal w'
       /\ activeFile (state w') = Some "ghost.tex"
       /\ activeFile (state w') ≠ activeFile (state w)
       /\ ~ active_is_open (state w').
Proof.
  simpl. split; [apply example_active_is_open; decide_closed|].
  split; [decide_closed|].
  eexists. split; [vm_compute; reflexivity|]. simpl.
  split; [reflexivity|]. split; [discriminate|].
  intros Hinv. specialize (Hinv "ghost.tex" eq_refl). simpl in Hinv.
  revert Hinv. decide_closed.
Qed.

Lemma active_is_open_preserved_witness :
  let w := example_world (Some "a.tex") in
  let op := SetActiveFile (Some "c.tex") in
  active_is_open (state w)
  /\ keeps_membership op (state w)
  /\ exists w', perform show_json op w = Normal w'
       /\ active_is_open (state w').
Proof.
  assert (Hinv : active_is_open (state (example_world (Some "a.tex")))).
  { apply example_active_is_open. decide_closed. }
  assert (Hok : keeps_membership (SetActiveFile (Some "c.tex"))
                  (state (example_world (Some "a.tex")))).
  { simpl. decide_closed. }
  split; [exact Hinv|]. split; [exact Hok|].
  exact (proj2 (active_is_open_preserved show_json
                  (SetActiveFile (Some "c.tex"))
                  (example_world (Some "a.tex"))) Hinv Hok).
Defined.

(** A storage whose entry for project p1 was cut short. *)
Lemma getStoredState_absent_or_unparseable_witness :
  let storage := Available {[ storage_key "p1" := "{openFiles:[" ]} in
  (getItem storage (storage_key "p1") = Normal None
   \/ exists text e,
        getItem storage (storage_key "p1") = Normal (Some text)
        /\ parse_literal text = Throw e)
  /\ getStoredState parse_literal storage "p1"
     = Normal (JObject [("openFiles", JArray []); ("activeFile", JNull)]).
Proof.
  assert (H : getItem (Available {[ storage_key "p1" := "{openFiles:[" ]})
                      (storage_key "p1") = Normal None
              \/ exists text e,
                   getItem (Available {[ storage_key "p1" := "{openFiles:[" ]})
                           (storage_key "p1") = Normal (Some text)
                   /\ parse_literal text = Throw e).
  { right. exists "{openFiles:[", SyntaxError.
    split; vm_compute; reflexivity. }
  split; [exact H|].
  exact (getStoredState_absent_or_unparseable parse_literal
           (Available {[ storage_key "p1" := "{openFiles:[" ]}) "p1" H).
Defined.

End ProjectStoreFacts.

(** ** Keyboard shortcuts: matching and dispatch *)

Module ShortcutsFacts.
Import Shortcuts.

Section WithLowerCase.

Variable toLowerCase : string -> string.

Lemma matches_inv e s :
  matches toLowerCase e s = true ->
  toLowerCase (event_key e) = toLowerCase (key s)
  /\ truthy_obool (ctrl s) = (ctrlKey e || metaKey e)
  /\ truthy_obool (shift s) = shiftKey e
  /\ truthy_obool (alt s) = altKey e.
Proof.
  unfold matches, ctrlMatch, shiftMatch, altMatch.
  rewrite !andb_true_iff. intros [[[Hk Hc] Hs] Ha].
  apply bool_decide_eq_true in Hk. split; [exact Hk|].
  destruct (truthy_obool (ctrl s)), (truthy_obool (shift s)),
    (truthy_obool (alt s)), (ctrlKey e), (metaKey e), (shiftKey e), (altKey e);
    simpl in *; auto; discriminate.
Qed.

(** The [meta] field of a binding is never read. *)
Lemma matches_ignores_meta e s m :
  matches toLowerCase e
    {| oid := oid s; key := key s; ctrl := ctrl s; shift := shift s;
       alt := alt s; meta := m; handler := handler s;
       description := description s |}
  = matches toLowerCase e s.
Proof. reflexivity. Qed.

Lemma dispatch_loop_no_match l e :
  Forall (fun x => matches toLowerCase e x = false) l ->
  dispatch_loop toLowerCase l e = {| invoked := []; defaultPrevented := false |}.
Proof.
  induction 1 as [|x l Hx _ IH]; simpl; [reflexivity|]. by rewrite Hx.
Qed.

Lemma dispatch_loop_first_match pre s rest e :
  Forall (fun x => matches toLowerCase e x = false) pre ->
  matches toLowerCase e s = true ->
  dispatch_loop toLowerCase (pre ++ s :: rest) e = fired s.
Proof.
  intros Hpre Hs. induction Hpre as [|x pre Hx _ IH]; simpl.
  - by rewrite Hs.
  - by rewrite Hx.
Qed.

Lemma dispatch_loop_invoked l e h :
  h ∈ invoked (dispatch_loop toLowerCase l e) ->
  exists s, s ∈ l /\ matches toLowerCase e s = true /\ handler s = h.
Proof.
  induction l as [|x l IH]; simpl.
  - intros H. by apply elem_of_nil in H.
  - destruct (matches toLowerCase e x) eqn:Hx; simpl.
    + intros H. apply list_elem_of_singleton in H. subst h.
      exists x. split; [by left | auto].
    + intros H. destruct (IH H) as (s & Hs & Hm & Hh).
      exists s. split; [by right | auto].
Qed.

Lemma not_matching_not_elem l e c :
  Forall (fun x => matches toLowerCase e x = false) l ->
  matches toLowerCase e c = true ->
  list_find (fun x => x = c) l = None.
Proof.
  intros Hl Hc. apply list_find_None.
  eapply Forall_impl; [exact Hl|]. simpl. intros x Hx ->. congruence.
Qed.

Lemma unregister_first_of_two l c1 c2 :
  list_find (fun x => x = c1) l = None ->
  unregister c1 ((l ++ [c1]) ++ [c2]) = l ++ [c2].
Proof.
  intros Hl. unfold unregister, indexOf.
  rewrite <- app_assoc. simpl.
  rewrite (list_find_app_r _ l (c1 :: [c2]) Hl). simpl.
  rewrite decide_True by reflexivity. simpl.
  rewrite bool_decide_eq_true_2 by lia.
  rewrite Nat2Z.id. apply delete_middle.
Qed.

(** C7, amended. A handler runs on a key event only for a binding whose
    key equals the event's key up to case, whose declared shift and alt
    are exactly the event's, and whose declared ctrl is true exactly
    when the event has ctrl or meta held: ctrl and meta count as one
    modifier and the binding's own [meta] field is not compared. So a
    binding that requires no ctrl never fires while ctrl (or meta) is
    held. *)
Theorem fires_only_when_modifiers_match
    (shortcuts localShortcuts : list ShortcutConfig) (e : KeyboardEvent)
    (h : nat) :
  h ∈ invoked (handleKeyDown toLowerCase shortcuts localShortcuts e) ->
  exists s,
    s ∈ shortcuts ++ localShortcuts /\ handler s = h
    /\ toLowerCase (event_key e) = toLowerCase (key s)
    /\ truthy_obool (shift s) = shiftKey e
    /\ truthy_obool (alt s) = altKey e
    /\ truthy_obool (ctrl s) = (ctrlKey e || metaKey e)
    /\ (truthy_obool (ctrl s) = false -> ctrlKey e = false /\ metaKey e = false).
Proof.
  unfold handleKeyDown. intros H.
  destruct (dispatch_loop_invoked _ _ _ H) as (s & Hin & Hm & Hh).
  destruct (matches_inv _ _ Hm) as (Hk & Hc & Hs & Ha).
  exists s. repeat (split; [assumption|]).
  intros Hno. rewrite Hno in Hc. symmetry in Hc.
  by apply orb_false_iff in Hc.
Qed.

(** C8. On a key event the global bindings are tried before the ones of
    the call, each group in registration order; the handler of the
    first binding that matches is the only one called, whatever comes
    after it in the list. With two matching bindings registered one
    after the other, the event calls the first one's handler only, and
    once the first is unregistered it calls the second one's. *)
Theorem first_registered_match_wins
    (shortcuts localShortcuts : list ShortcutConfig) (e : KeyboardEvent) :
  (forall pre s rest,
      shortcuts ++ localShortcuts = pre ++ s :: rest ->
      Forall (fun x => matches toLowerCase e x = false) pre ->
      matches toLowerCase e s = true ->
      handleKeyDown toLowerCase shortcuts localShortcuts e = fired s
      /\ forall rest', dispatch_loop toLowerCase (pre ++ s :: rest') e = fired s)
  /\ (forall s, s ∈ shortcuts -> matches toLowerCase e s = true ->
        handleKeyDown toLowerCase shortcuts localShortcuts e
        = handleKeyDown toLowerCase shortcuts [] e)
  /\ (Forall (fun x => matches toLowerCase e x = false)
             (shortcuts ++ localShortcuts) ->
      handleKeyDown toLowerCase shortcuts localShortcuts e
      = {| invoked := []; defaultPrevented := false |})
  /\ (forall c1 c2,
        Forall (fun x => matches toLowerCase e x = false) shortcuts ->
        matches toLowerCase e c1 = true ->
        matches toLowerCase e c2 = true ->
        let registered1 := registerShortcut c1 shortcuts in
        let registered2 := registerShortcut c2 (fst registered1) in
        fst registered2 = shortcuts ++ [c1; c2]
        /\ handleKeyDown toLowerCase (fst registered2) localShortcuts e = fired c1
        /\ snd registered1 (fst registered2) = shortcuts ++ [c2]
        /\ handleKeyDown toLowerCase (snd registered1 (fst registered2))
             localShortcuts e = fired c2).
Proof.
  split; [|split; [|split]].
  - intros pre s rest Heq Hpre Hs. unfold handleKeyDown. rewrite Heq.
    split; [|intros rest']; by apply dispatch_loop_first_match.
  - intros s Hin Hs. unfold handleKeyDown. rewrite app_nil_r.
    apply list_elem_of_split in Hin as (l1 & l2 & ->).
    assert (Hfirst : exists pre x rest, l1 ++ s :: l2 = pre ++ x :: rest
              /\ Forall (fun y => matches toLowerCase e y = false) pre
              /\ matches toLowerCase e x = true).
    { clear localShortcuts. induction l1 as [|y l1 IH]; simpl.
      - exists [], s, l2. auto.
      - destruct (matches toLowerCase e y) eqn:Hy.
        + exists [], y, (l1 ++ s :: l2). auto.
        + destruct IH as (pre & x & rest & Heq & Hpre & Hx).
          exists (y :: pre), x, rest. rewrite Heq. auto. }
    destruct Hfirst as (pre & x & rest & -> & Hpre & Hx).
    rewrite <- app_assoc. simpl.
    by rewrite !dispatch_loop_first_match.
  - intros Hnone. by apply dispatch_loop_no_match.
  - intros c1 c2 Hnone H1 H2. simpl.
    pose proof (not_matching_not_elem _ _ _ Hnone H1) as Hfresh.
    split; [by rewrite <- app_assoc|].
    unfold handleKeyDown.
    rewrite (unregister_first_of_two _ _ c2 Hfresh).
    rewrite <- !app_assoc. simpl. split; [|split; [reflexivity|]].
    + by apply dispatch_loop_first_match.
    + by apply dispatch_loop_first_match.
Qed.

End WithLowerCase.

(** C7, counterexample. A Ctrl+S binding that declares no meta fires on
    Meta+S with ctrl up: the event's modifiers are not the declared
    ones. *)
Lemma meta_fires_ctrl_binding_counterexample :
  let s := save_binding 1 7 in
  let e := key_event "s" false false false true in
  handleKeyDown ascii_toLowerCase [s] [] e = fired s
  /\ invoked (handleKeyDown ascii_toLowerCase [s] [] e) = [7]
  /\ truthy_obool (meta s) = false /\ metaKey e = true
  /\ truthy_obool (ctrl s) = true /\ ctrlKey e = false
  /\ event_modifiers e ≠ declared_modifiers s.
Proof. simpl. repeat split; try (vm_compute; reflexivity). discriminate. Qed.

Lemma fires_only_when_modifiers_match_witness :
  let s := save_binding 1 7 in
  let e := key_event "s" true false false false in
  7 ∈ invoked (handleKeyDown ascii_toLowerCase [s] [] e)
  /\ exists s',
       s' ∈ [s] ++ [] /\ handler s' = 7
       /\ ascii_toLowerCase (event_key e) = ascii_toLowerCase (key s')
       /\ truthy_obool (shift s') = shiftKey e
       /\ truthy_obool (alt s') = altKey e
       /\ truthy_obool (ctrl s') = (ctrlKey e || metaKey e)
       /\ (truthy_obool (ctrl s') = false ->
           ctrlKey e = false /\ metaKey e = false).
Proof.
  assert (H : 7 ∈ invoked (handleKeyDown ascii_toLowerCase [save_binding 1 7] []
                             (key_event "s" true false false false)))
    by decide_closed.
  split; [exact H|].
  exact (fires_only_when_modifiers_match ascii_toLowerCase [save_binding 1 7] []
           (key_event "s" true false false false) 7 H).
Defined.

Lemma first_registered_match_wins_witness :
  let c1 := save_binding 1 7 in
  let c2 := save_binding 2 8 in
  let e := key_event "s" true false false false in
  let registered1 := registerShortcut c1 [] in
  let registered2 := registerShortcut c2 (fst registered1) in
  invoked (handleKeyDown ascii_toLowerCase (fst registered2) [] e) = [7]
  /\ invoked (handleKeyDown ascii_toLowerCase
                (snd registered1 (fst registered2)) [] e) = [8].
Proof.
  destruct (first_registered_match_wins ascii_toLowerCase [] []
              (key_event "s" true false false false)) as (_ & _ & _ & H).
  destruct (H (save_binding 1 7) (save_binding 2 8) (Forall_nil_2 _)
              eq_refl eq_refl) as (_ & H1 & _ & H2).
  exact (conj (f_equal invoked H1) (f_equal invoked H2)).
Defined.

End ShortcutsFacts.

(** ** Editor: building the comment highlights *)

Module EditorFacts.
Import Editor.

Lemma lines_pos doc : (1 <= lines doc)%Z.
Proof. unfold lines, text_lines. simpl. lia. Qed.

Lemma doc_line_valid doc n :
  (1 <= n <= lines doc)%Z ->
  exists l, doc_line doc n = Normal l /\ number l = n.
Proof.
  intros Hn. unfold doc_line. rewrite bool_decide_eq_false_2 by lia.
  destruct (text_lines doc !! Z.to_nat (n - 1)) as [t|] eqn:Ht.
  - eexists. split; reflexivity.
  - apply lookup_ge_None in Ht. unfold lines in Hn. lia.
Qed.

Lemma doc_line_invalid doc n :
  (n < 1 \/ n > lines doc)%Z -> doc_line doc n = Throw RangeError.
Proof. intros Hn. unfold doc_line. by rewrite bool_decide_eq_true_2. Qed.

Lemma comment_highlight_id doc c h :
  comment_highlight doc c = Normal h -> hl_id h = id c.
Proof.
  unfold comment_highlight.
  destruct (doc_line doc (Z.min (line_start c) (lines doc))); [|discriminate].
  destruct (doc_line doc (Z.min (line_end c) (lines doc))); [|discriminate].
  simpl. by intros [= <-].
Qed.

Lemma comment_highlight_clamped doc c :
  (1 <= line_start c)%Z -> (1 <= line_end c)%Z ->
  exists fromLine toLine,
    doc_line doc (Z.min (line_start c) (lines doc)) = Normal fromLine
    /\ doc_line doc (Z.min (line_end c) (lines doc)) = Normal toLine
    /\ number fromLine = Z.min (line_start c) (lines doc)
    /\ number toLine = Z.min (line_end c) (lines doc)
    /\ comment_highlight doc c
       = Normal {| hl_from := from fromLine; hl_to := to toLine;
                   hl_id := id c |}.
Proof.
  intros Hs He. pose proof (lines_pos doc) as Hpos.
  destruct (doc_line_valid doc (Z.min (line_start c) (lines doc)))
    as (l1 & H1 & N1); [lia|].
  destruct (doc_line_valid doc (Z.min (line_end c) (lines doc)))
    as (l2 & H2 & N2); [lia|].
  exists l1, l2. unfold comment_highlight. rewrite H1, H2. auto.
Qed.

Lemma collect_highlights_spec doc comments : forall acc,
  exists hs,
    collect_highlights doc comments acc = Normal (acc ++ hs)
    /\ (forall h, h ∈ hs ->
          exists c, c ∈ comments /\ resolved c = false
                    /\ comment_highlight doc c = Normal h)
    /\ (forall c h, c ∈ comments -> resolved c = false ->
          comment_highlight doc c = Normal h -> h ∈ hs).
Proof.
  induction comments as [|c rest IH]; intros acc; simpl.
  - exists []. rewrite app_nil_r. split; [reflexivity|].
    split; [intros h H | intros c h H]; by apply elem_of_nil in H.
  - destruct (resolved c) eqn:Hr.
    + destruct (IH acc) as (hs & Hrun & Hsound & Hcomplete).
      exists hs. split; [exact Hrun|]. split.
      * intros h Hh. destruct (Hsound h Hh) as (c' & Hin & Hres & Hhl).
        exists c'. split; [by right | auto].
      * intros c' h Hin Hres Hhl.
        apply elem_of_cons in Hin as [->|Hin]; [congruence|eauto].
    + destruct (comment_highlight doc c) as [h0|err] eqn:Hc; simpl.
      * destruct (IH (acc ++ [h0])) as (hs & Hrun & Hsound & Hcomplete).
        exists (h0 :: hs). rewrite Hrun, <- app_assoc.
        split; [reflexivity|]. split.
        -- intros h Hh. apply elem_of_cons in Hh as [->|Hh].
           ++ exists c. split; [by left | auto].
           ++ destruct (Hsound h Hh) as (c' & Hin & Hres & Hhl).
              exists c'. split; [by right | auto].
        -- intros c' h Hin Hres Hhl.
           apply elem_of_cons in Hin as [->|Hin].
           ++ rewrite Hc in Hhl. injection Hhl as ->. by left.
           ++ right. eauto.
      * destruct (IH acc) as (hs & Hrun & Hsound & Hcomplete).
        exists hs. split; [exact Hrun|]. split.
        -- intros h Hh. destruct (Hsound h Hh) as (c' & Hin & Hres & Hhl).
           exists c'. split; [by right | auto].
        -- intros c' h Hin Hres Hhl.
           apply elem_of_cons in Hin as [->|Hin]; [congruence|eauto].
Qed.

(** The dispatch goes through exactly when no region is empty or ends
    before it starts. *)
Lemma mark_ranges_spec (hs : list Highlight) :
  mark_ranges hs
  = if forallb nonempty_region hs then Normal hs else Throw RangeError.
Proof.
  induction hs as [|h hs IH]; simpl; [reflexivity|].
  unfold highlightMark_range. destruct (nonempty_region h); simpl;
    [|reflexivity].
  rewrite IH. by destruct (forallb nonempty_region hs).
Qed.

Lemma highlights_effect_spec doc comments hs :
  collect_highlights doc comments [] = Normal hs ->
  highlights_effect (Some doc) comments
  = if forallb nonempty_region hs then Normal (Some hs) else Throw RangeError.
Proof.
  intros Hrun. unfold highlights_effect, dispatch_setHighlights.
  rewrite Hrun. simpl. rewrite mark_ranges_spec.
  by destruct (forallb nonempty_region hs).
Qed.

Lemma highlights_effect_shown doc comments hs shown :
  collect_highlights doc comments [] = Normal hs ->
  highlights_effect (Some doc) comments = Normal shown ->
  shown = Some hs.
Proof.
  intros Hrun. rewrite (highlights_effect_spec _ _ _ Hrun).
  destruct (forallb nonempty_region hs); [|discriminate]. by intros [= <-].
Qed.

Lemma highlights_effect_throws doc comments hs h :
  collect_highlights doc comments [] = Normal hs ->
  h ∈ hs -> (hl_to h <= hl_from h)%Z ->
  highlights_effect (Some doc) comments = Throw RangeError.
Proof.
  intros Hrun Hin Hle. rewrite (highlights_effect_spec _ _ _ Hrun).
  destruct (forallb nonempty_region hs) eqn:Hall; [|reflexivity].
  rewrite forallb_forall in Hall. apply list_elem_of_In in Hin.
  specialize (Hall h Hin). unfold nonempty_region in Hall.
  apply bool_decide_eq_true in Hall. lia.
Qed.



(** The effect on a three-line document: the resolved comment and the
    comment starting at line 0 get no region, the comment on lines 5 to
    7 gets the last line. *)
Example highlights_effect_example :
  highlights_effect (Some example_doc)
    [comment_on "c1" 1 2 false; comment_on "c2" 2 3 true;
     comment_on "c3" 5 7 false; comment_on "c4" 0 1 false]
  = Normal (Some [ {| hl_from := 0; hl_to := 21; hl_id := "c1" |};
                   {| hl_from := 22; hl_to := 27; hl_id := "c3" |} ]).
Proof. vm_compute. reflexivity. Qed.

End EditorFacts.

(** ** editorStore: more on buffers *)

Module EditorStoreMoreFacts.
Import EditorStore EditorStoreRuns.

Lemma setFileContent_map p c isOriginal st :
  fileContents (setFileContent p c isOriginal st)
  = <[p := if isOriginal
           then {| content := c; originalContent := c; isDirty := false |}
           else {| content := c;
                   originalContent :=
                     originalContent_or (fileContents st !! p) c;
                   isDirty :=
                     bool_decide
                       (c ≠ originalContent_or (fileContents st !! p) c) |}]>
      (fileContents st).
Proof. destruct isOriginal; reflexivity. Qed.

Lemma apply_op_other p op st :
  ~ resyncs p op ->
  forall b, fileContents st !! p = Some b ->
  exists b', fileContents (apply_op op st) !! p = Some b'
    /\ originalContent b' = originalContent b
    /\ (buffer_consistent b -> buffer_consistent b').
Proof.
  intros Hop b Hb. destruct op as [q c|q c|q]; cbn [apply_op resyncs] in *.
  - exists b. rewrite setFileContent_map, lookup_insert_ne by exact Hop. auto.
  - rewrite setFileContent_map.
    destruct (decide (q = p)) as [->|Hne].
    + rewrite lookup_insert_eq, Hb. simpl. eexists. split; [reflexivity|].
      split; [reflexivity|]. intros _.
      apply EditorStoreFacts.edited_buffer_consistent.
    + rewrite lookup_insert_ne by exact Hne. exists b. auto.
  - exists b. unfold markFileSaved.
    destruct (fileContents st !! q) as [e|] eqn:He; [|auto].
    rewrite EditorStoreFacts.fileContents_set, lookup_insert_ne by exact Hop.
    auto.
Qed.

(** X1. While a loaded buffer is only edited (no load of its path and
    no markFileSaved on it, whatever happens to other paths), its
    [originalContent] stays what it was, and its dirty flag stays the
    comparison of its content with it. *)
Theorem edits_keep_synced_content
    (p : string) (ops : list BufferOp) (st : EditorState) (b : FileContent) :
  Forall (fun op => ~ resyncs p op) ops ->
  fileContents st !! p = Some b ->
  buffer_consistent b ->
  exists b', fileContents (run ops st) !! p = Some b'
    /\ originalContent b' = originalContent b
    /\ (isDirty b' = true <-> content b' ≠ originalContent b).
Proof.
  intros Hops. revert st b.
  induction Hops as [|op ops Hop _ IH]; intros st b Hb Hcons; simpl.
  - exists b. auto.
  - destruct (apply_op_other p op st Hop b Hb) as (b1 & Hb1 & Ho1 & Hc1).
    destruct (IH (apply_op op st) b1 Hb1 (Hc1 Hcons)) as (b' & Hb' & Ho' & Hd').
    exists b'. split; [exact Hb'|]. rewrite <- Ho1. auto.
Qed.

Lemma edits_keep_synced_content_witness :
  let st := setFileContent "main.tex" "v0" true initial in
  let ops := [Edit "main.tex" "v1"; Load "refs.bib" "r"; Edit "main.tex" "v0"] in
  let b := {| content := "v0"; originalContent := "v0"; isDirty := false |} in
  Forall (fun op => ~ resyncs "main.tex" op) ops
  /\ fileContents st !! "main.tex" = Some b
  /\ buffer_consistent b
  /\ exists b', fileContents (run ops st) !! "main.tex" = Some b'
       /\ originalContent b' = originalContent b
       /\ (isDirty b' = true <-> content b' ≠ originalContent b).
Proof.
  assert (H1 : Forall (fun op => ~ resyncs "main.tex" op)
                 [Edit "main.tex" "v1"; Load "refs.bib" "r";
                  Edit "main.tex" "v0"]).
  { repeat constructor; simpl; auto; discriminate. }
  assert (H2 : fileContents (setFileContent "main.tex" "v0" true initial)
                 !! "main.tex"
               = Some {| content := "v0"; originalContent := "v0";
                         isDirty := false |})
    by (vm_compute; reflexivity).
  assert (H3 : buffer_consistent
                 {| content := "v0"; originalContent := "v0";
                    isDirty := false |})
    by apply EditorStoreFacts.loaded_buffer_consistent.
  split; [exact H1|]. split; [exact H2|]. split; [exact H3|].
  exact (edits_keep_synced_content "main.tex" _ _ _ H1 H2 H3).
Defined.

(** X2. The first edit of a path that was never loaded takes its
    content as the synchronized content: the buffer is clean after it,
    and a second edit is dirty exactly when it differs from the first. *)
Theorem first_edit_is_the_baseline
    (p c1 c2 : string) (st : EditorState) :
  fileContents st !! p = None ->
  fileContents (setFileContent p c1 false st) !! p
  = Some {| content := c1; originalContent := c1; isDirty := false |}
  /\ fileContents (setFileContent p c2 false (setFileContent p c1 false st)) !! p
     = Some {| content := c2; originalContent := c1;
               isDirty := bool_decide (c2 ≠ c1) |}.
Proof.
  intros Hnone.
  assert (H1 : fileContents (setFileContent p c1 false st) !! p
               = Some {| content := c1; originalContent := c1;
                         isDirty := false |}).
  { rewrite setFileContent_map, lookup_insert_eq, Hnone. simpl.
    by rewrite bool_decide_eq_false_2 by (intros H; by apply H). }
  split; [exact H1|].
  by rewrite setFileContent_map, lookup_insert_eq, H1.
Qed.

Lemma first_edit_is_the_baseline_witness :
  fileContents initial !! "main.tex" = None
  /\ fileContents (setFileContent "main.tex" "a" false initial) !! "main.tex"
     = Some {| content := "a"; originalContent := "a"; isDirty := false |}
  /\ fileContents (setFileContent "main.tex" "b" false
                     (setFileContent "main.tex" "a" false initial)) !! "main.tex"
     = Some {| content := "b"; originalContent := "a";
               isDirty := bool_decide ("b" ≠ "a") |}.
Proof.
  split; [reflexivity|].
  exact (first_edit_is_the_baseline "main.tex" "a" "b" initial eq_refl).
Defined.

(** Reading after writing: after [setFileContent(p, c)] (load or
    edit) [getFileContent(p)] is [c], and the content and the dirty flag
    of every other path are what they were. *)
Lemma setFileContent_read_back
    (p c : string) (isOriginal : bool) (st : EditorState) (q : string) :
  getFileContent (setFileContent p c isOriginal st) q
  = (if bool_decide (q = p) then Some c else getFileContent st q)
  /\ (q ≠ p ->
      isFileDirty (setFileContent p c isOriginal st) q = isFileDirty st q).
Proof.
  unfold getFileContent, isFileDirty. rewrite setFileContent_map.
  destruct (decide (q = p)) as [->|Hq].
  - rewrite (bool_decide_eq_true_2 (p = p) eq_refl), lookup_insert_eq.
    split; [|congruence]. by destruct isOriginal.
  - rewrite (bool_decide_eq_false_2 (q = p) Hq).
    rewrite lookup_insert_ne by congruence. auto.
Qed.

(** X3. [markFileSaved(p)] changes no content: every path reads as
    before, [p] is clean after it and the dirty flag of every other path
    is unchanged. *)
Theorem markFileSaved_cleans_only_its_path
    (p : string) (st : EditorState) (q : string) :
  getFileContent (markFileSaved p st) q = getFileContent st q
  /\ isFileDirty (markFileSaved p st) q
     = (if bool_decide (q = p) then false else isFileDirty st q).
Proof.
  unfold getFileContent, isFileDirty, markFileSaved.
  destruct (fileContents st !! p) as [existing|] eqn:Hp.
  - rewrite EditorStoreFacts.fileContents_set. case_bool_decide as Hq.
    + subst q. rewrite lookup_insert_eq, Hp. auto.
    + rewrite lookup_insert_ne by congruence. auto.
  - case_bool_decide as Hq; [subst q; rewrite Hp|]; auto.
Qed.

(** X4. [hasUnsavedChanges] is true exactly when [isFileDirty] is true
    for some path. *)
Theorem hasUnsavedChanges_iff_some_dirty (st : EditorState) :
  hasUnsavedChanges st = true <-> exists p, isFileDirty st p = true.
Proof.
  unfold hasUnsavedChanges, isFileDirty. rewrite bool_decide_eq_true.
  rewrite Exists_exists. split.
  - intros ([p b] & Hin & Hd). apply elem_of_map_to_list in Hin.
    exists p. by rewrite Hin.
  - intros (p & Hp). destruct (fileContents st !! p) as [b|] eqn:Hb;
      [|discriminate].
    exists (p, b). split; [by apply elem_of_map_to_list | exact Hp].
Qed.

End EditorStoreMoreFacts.

(** ** The save handlers *)

Module SaveFacts.
Import EditorStore ProjectStore MainLayout.

Lemma handleSave_request_inv activeFile project editor editor' r :
  handleSave_request activeFile project editor = (editor', r) ->
  (r = None /\ editor' = editor)
  \/ exists active proj file content,
       activeFile = Some active /\ active ≠ EmptyString
       /\ project = Some proj
       /\ List.find (fun f => bool_decide (path f = active)) (files proj)
          = Some file
       /\ getFileContent editor active = Some content
       /\ editor' = setSaving true editor
       /\ r = Some {| request_path := active; request_fileId := file_id file;
                      request_content := content |}.
Proof.
  unfold handleSave_request.
  destruct activeFile as [active|]; [|intros [= <- <-]; auto].
  destruct project as [proj|]; [|intros [= <- <-]; auto].
  unfold truthy_str. case_bool_decide as Hne; simpl; [intros [= <- <-]; auto|].
  destruct (getFileContent editor active) as [c|] eqn:Hc;
    [|intros [= <- <-]; auto].
  destruct (List.find _ (files proj)) as [f|] eqn:Hf;
    [|intros [= <- <-]; auto].
  intros [= <- <-]. right. exists active, proj, f, c. auto 10.
Qed.

(** X5. [handleSave] of MainLayout sends a request only when there is a
    non-empty active file, a current project, a loaded buffer for the
    active file and a file with that path in the project's listing;
    the request then carries the buffer's content and the id of the
    first such file, and of the store only the saving flag is set. When
    one of these is missing nothing happens: the store is unchanged. *)
Theorem handleSave_request_guards
    (activeFile : option string) (project : option Project)
    (editor : EditorState) :
  let result := handleSave_request activeFile project editor in
  (snd result = None -> fst result = editor)
  /\ (forall pending, snd result = Some pending ->
        activeFile = Some (request_path pending)
        /\ request_path pending ≠ EmptyString
        /\ getFileContent editor (request_path pending)
           = Some (request_content pending)
        /\ (exists proj file,
              project = Some proj /\ file ∈ files proj
              /\ path file = request_path pending
              /\ file_id file = request_fileId pending)
        /\ fst result = setSaving true editor).
Proof.
  destruct (handleSave_request activeFile project editor) as [editor' r] eqn:H.
  apply handleSave_request_inv in H
    as [[-> ->] | (active & proj & file & content & -> & Hne & -> & Hf & Hc
                   & -> & ->)]; simpl.
  - split; [reflexivity | discriminate].
  - split; [discriminate|]. intros pending [= <-]. simpl.
    repeat (split; [assumption || reflexivity|]).
    split; [|reflexivity]. exists proj, file.
    apply find_some in Hf as [Hin Hp]. apply bool_decide_eq_true in Hp.
    split; [reflexivity|]. split; [by apply list_elem_of_In|]. auto.
Qed.

(** X6. A save that no edit overtakes ends with the buffer clean and its
    synchronized content equal to the content that was sent; the
    buffers of the other paths are untouched and the saving flag is
    reset. *)
Theorem confirmed_save_syncs_what_was_sent
    (activeFile : option string) (project : option Project)
    (editor editor1 : EditorState) (pending : PendingRequest) :
  handleSave_request activeFile project editor = (editor1, Some pending) ->
  let editor2 := handleSave_settle true pending editor1 in
  fileContents editor2 !! request_path pending
  = Some {| content := request_content pending;
            originalContent := request_content pending; isDirty := false |}
  /\ (forall q, q ≠ request_path pending ->
        fileContents editor2 !! q = fileContents editor !! q)
  /\ isSaving editor2 = false.
Proof.
  intros H. apply handleSave_request_inv in H
    as [[[=] _] | (active & proj & file & content & -> & Hne & -> & Hf & Hc
                   & -> & [= ->])].
  intros editor2. subst editor2. cbn [request_path request_content].
  unfold getFileContent in Hc.
  destruct (fileContents editor !! active) as [b|] eqn:Hb; [|discriminate].
  injection Hc as <-.
  assert (Hm : fileContents (handleSave_settle true
                 {| request_path := active; request_fileId := file_id file;
                    request_content := content b |} (setSaving true editor))
               = <[active := {| content := content b;
                                originalContent := content b;
                                isDirty := false |}]> (fileContents editor)).
  { unfold handleSave_settle, markFileSaved. cbn [request_path].
    rewrite EditorStoreFacts.fileContents_setSaving.
    rewrite (EditorStoreFacts.fileContents_setSaving true editor), Hb.
    by rewrite EditorStoreFacts.fileContents_set. }
  rewrite Hm. split; [by rewrite lookup_insert_eq|]. split; [|reflexivity].
  intros q Hq. by rewrite lookup_insert_ne by congruence.
Qed.

Lemma confirmed_save_syncs_what_was_sent_witness :
  let pending := {| request_path := "main.tex"; request_fileId := "f1";
                    request_content := "C1" |} in
  let editor1 := setSaving true race_editor0 in
  handleSave_request (Some "main.tex") (Some race_project) race_editor0
  = (editor1, Some pending)
  /\ let editor2 := handleSave_settle true pending editor1 in
     fileContents editor2 !! request_path pending
     = Some {| content := request_content pending;
               originalContent := request_content pending; isDirty := false |}
     /\ (forall q, q ≠ request_path pending ->
           fileContents editor2 !! q = fileContents race_editor0 !! q)
     /\ isSaving editor2 = false.
Proof.
  assert (Hr : handleSave_request (Some "main.tex") (Some race_project)
                 race_editor0
               = (setSaving true race_editor0,
                  Some {| request_path := "main.tex"; request_fileId := "f1";
                          request_content := "C1" |}))
    by (vm_compute; reflexivity).
  split; [exact Hr|].
  exact (confirmed_save_syncs_what_was_sent _ _ _ _ _ Hr).
Defined.

(** X7. A save that fails changes no buffer: every path has the content
    and the dirty flag it had when the save was requested, so a dirty
    buffer stays dirty, and the saving flag is reset. *)
Theorem failed_save_keeps_buffers
    (activeFile : option string) (project : option Project)
    (editor editor1 : EditorState) (pending : PendingRequest) :
  handleSave_request activeFile project editor = (editor1, Some pending) ->
  let editor2 := handleSave_settle false pending editor1 in
  fileContents editor2 = fileContents editor
  /\ (forall q, isFileDirty editor2 q = isFileDirty editor q)
  /\ isSaving editor2 = false.
Proof.
  intros H. apply handleSave_request_inv in H
    as [[[=] _] | (active & proj & file & content & -> & Hne & -> & Hf & Hc
                   & -> & [= ->])].
  intros editor2. subst editor2. unfold handleSave_settle, isFileDirty.
  rewrite !EditorStoreFacts.fileContents_setSaving. auto.
Qed.

Lemma failed_save_keeps_buffers_witness :
  let pending := {| request_path := "main.tex"; request_fileId := "f1";
                    request_content := "C1" |} in
  let editor1 := setSaving true race_editor0 in
  handleSave_request (Some "main.tex") (Some race_project) race_editor0
  = (editor1, Some pending)
  /\ let editor2 := handleSave_settle false pending editor1 in
     fileContents editor2 = fileContents race_editor0
     /\ (forall q, isFileDirty editor2 q = isFileDirty race_editor0 q)
     /\ isSaving editor2 = false.
Proof.
  assert (Hr : handleSave_request (Some "main.tex") (Some race_project)
                 race_editor0
               = (setSaving true race_editor0,
                  Some {| request_path := "main.tex"; request_fileId := "f1";
                          request_content := "C1" |}))
    by (vm_compute; reflexivity).
  split; [exact Hr|].
  exact (failed_save_keeps_buffers _ _ _ _ _ Hr).
Defined.

(** X8. The save of the editing surface (Mod-s) and the Save button of
    the layout do the same for the active file: for a non-empty path,
    and a project whose files all have non-empty ids, the two handlers
    send the same request, or both send none, and leave the same store. *)
Theorem editor_and_layout_save_agree
    (filePath : string) (project : option Project) (editor : EditorState) :
  filePath ≠ EmptyString ->
  (forall proj f, project = Some proj -> f ∈ files proj ->
                  file_id f ≠ EmptyString) ->
  EditorActions.handleSave_request filePath project editor
  = handleSave_request (Some filePath) project editor.
Proof.
  intros Hne Hids.
  unfold EditorActions.handleSave_request, EditorActions.fileId_of,
    handleSave_request.
  destruct project as [proj|]; [|reflexivity].
  unfold truthy_str at 2. rewrite (bool_decide_eq_false_2 _ Hne). simpl.
  destruct (List.find _ (files proj)) as [f|] eqn:Hf; simpl.
  - apply find_some in Hf as [Hin _]. apply list_elem_of_In in Hin.
    unfold truthy_str.
    rewrite (bool_decide_eq_false_2 _ (Hids proj f eq_refl Hin)). simpl.
    by destruct (getFileContent editor filePath).
  - by destruct (getFileContent editor filePath).
Qed.

Lemma editor_and_layout_save_agree_witness :
  "main.tex" ≠ EmptyString
  /\ (forall proj f, Some race_project = Some proj -> f ∈ files proj ->
                     file_id f ≠ EmptyString)
  /\ EditorActions.handleSave_request "main.tex" (Some race_project) race_editor0
     = handleSave_request (Some "main.tex") (Some race_project) race_editor0.
Proof.
  assert (H1 : "main.tex" ≠ EmptyString) by discriminate.
  assert (H2 : forall proj f, Some race_project = Some proj ->
                 f ∈ files proj -> file_id f ≠ EmptyString).
  { intros proj f [= <-] Hf. simpl in Hf.
    apply list_elem_of_singleton in Hf. subst f. discriminate. }
  split; [exact H1|]. split; [exact H2|].
  exact (editor_and_layout_save_agree "main.tex" (Some race_project)
           race_editor0 H1 H2).
Defined.

End SaveFacts.

(** ** projectStore: more on sessions and their persistence *)

Module ProjectStoreMoreFacts.
Import ProjectStore ProjectRestore.

Lemma storage_key_inj p q : storage_key p = storage_key q -> p = q.
Proof.
  unfold storage_key, STORAGE_KEY. cbn [String.append]. intros H.
  by injection H.
Qed.

Lemma storage_key_not_pdf_key p q : storage_key p ≠ PdfStore.pdf_key q.
Proof.
  unfold storage_key, STORAGE_KEY, PdfStore.pdf_key, PdfStore.PDF_STORAGE_KEY.
  cbn [String.append]. discriminate.
Qed.

Lemma filter_snoc_absent (p : string) (l : list string) :
  p ∉ l -> filter (fun f => f ≠ p) (l ++ [p]) = l.
Proof.
  intros Hp. rewrite filter_app.
  rewrite (filter_cons_False (fun f => f ≠ p) p []);
    [|intros H; by apply H].
  rewrite filter_nil, app_nil_r.
  induction l as [|x l IH]; [reflexivity|].
  apply not_elem_of_cons in Hp as [Hx Hl].
  rewrite filter_cons_True by congruence. by rewrite IH.
Qed.

Lemma session_record_stored ofs af :
  session_record (stored_record ofs af) = Some (ofs, af).
Proof.
  unfold session_record, stored_record, field. simpl.
  assert (H : mapM as_string (JString <$> ofs) = Some ofs).
  { induction ofs as [|x l IH]; [reflexivity|].
    rewrite fmap_cons. cbn [mapM as_string]. rewrite IH. reflexivity. }
  rewrite H. simpl. by destruct af.
Qed.

Section WithJSON.

Variable JSON_parse : string -> Completion JsValue.
Variable JSON_stringify : JsValue -> string.

(** X9. The open files stay distinct: when no path occurs twice in
    [openFiles], none does after [openFile], [closeFile],
    [setActiveFile] or [setFiles]; opening a file that is already open
    adds no second tab. *)
Theorem openFiles_stay_distinct (op : SessionOp) (w : World) :
  NoDup (openFiles (state w)) ->
  exists w', perform JSON_stringify op w = Normal w'
    /\ NoDup (openFiles (state w')).
Proof.
  intros Hnd. destruct op as [p|p|p|files]; simpl.
  - destruct (ProjectStoreFacts.openFile_state JSON_stringify p w)
      as (w' & Hw & Hof & _).
    exists w'. split; [exact Hw|]. rewrite Hof. case_bool_decide as Hin;
      [exact Hnd|].
    apply NoDup_app. split; [exact Hnd|]. split; [|apply NoDup_singleton].
    intros x Hx Hx'. apply list_elem_of_singleton in Hx'. by subst x.
  - destruct (ProjectStoreFacts.closeFile_state JSON_stringify p w)
      as (w' & Hw & Hof & _).
    exists w'. split; [exact Hw|]. rewrite Hof. by apply NoDup_filter.
  - destruct (ProjectStoreFacts.setActiveFile_state JSON_stringify p w)
      as (w' & Hw & Hof & _).
    exists w'. split; [exact Hw|]. by rewrite Hof.
  - destruct (currentProject (state w)) as [project|] eqn:Hp.
    + destruct (ProjectStoreFacts.setFiles_state JSON_stringify files w
                  project Hp) as (w' & Hw & Hof & _).
      exists w'. split; [exact Hw|]. rewrite Hof. by apply NoDup_filter.
    + exists w. split; [|exact Hnd].
      by apply ProjectStoreFacts.setFiles_no_project.
Qed.

Lemma perform_persists
    (op : SessionOp) (w : World) (proj : Project)
    (items : gmap string string) :
  currentProject (state w) = Some proj ->
  localStorage w = Available items ->
  exists w' items',
    perform JSON_stringify op w = Normal w'
    /\ localStorage w' = Available items'
    /\ items' !! storage_key (id proj)
       = Some (JSON_stringify
                 (stored_record (openFiles (state w')) (activeFile (state w'))))
    /\ (forall k, k ≠ storage_key (id proj) -> items' !! k = items !! k)
    /\ id <$> currentProject (state w') = Some (id proj).
Proof.
  intros Hp Hs. destruct w as [st storage]. simpl in Hp, Hs. subst storage.
  destruct op as [p|p|p|files]; cbn [perform];
    unfold openFile, closeFile, setActiveFile, setFiles, saveState_if_project,
      saveState; cbn [state ProjectStore.localStorage]; rewrite Hp; simpl;
    (eexists _, _; split; [reflexivity|]; split; [reflexivity|]; simpl;
     split; [by rewrite lookup_insert_eq|];
     split; [intros k Hk; by rewrite lookup_insert_ne by congruence|];
     reflexivity).
Qed.

(** X10. With a current project and a working storage, every session
    operation leaves in the project's storage entry the serialized
    record of the open files and the active file that the store holds
    after it, and changes no other entry of the storage. *)
Theorem session_operations_persist
    (op : SessionOp) (w : World) (proj : Project)
    (items : gmap string string) :
  currentProject (state w) = Some proj ->
  localStorage w = Available items ->
  exists w' items',
    perform JSON_stringify op w = Normal w'
    /\ localStorage w' = Available items'
    /\ items' !! storage_key (id proj)
       = Some (JSON_stringify
                 (stored_record (openFiles (state w')) (activeFile (state w'))))
    /\ (forall k, k ≠ storage_key (id proj) -> items' !! k = items !! k)
    /\ id <$> currentProject (state w') = Some (id proj).
Proof. apply perform_persists. Qed.

(** X11. A storage failure never stops a session operation, and what
    the store holds afterwards does not depend on the storage: with a
    blocked storage the operation completes with the same open files,
    active file and project as with a working one. *)
Theorem session_state_independent_of_storage
    (op : SessionOp) (st : ProjectState) (storage1 storage2 : LocalStorage) :
  exists w1 w2,
    perform JSON_stringify op {| state := st; localStorage := storage1 |}
    = Normal w1
    /\ perform JSON_stringify op {| state := st; localStorage := storage2 |}
       = Normal w2
    /\ state w1 = state w2.
Proof.
  destruct op as [p|p|p|files]; cbn [perform];
    unfold openFile, closeFile, setActiveFile, setFiles, saveState_if_project,
      saveState; cbn [state ProjectStore.localStorage];
    destruct (currentProject st) as [proj|] eqn:Hp;
    destruct storage1, storage2; simpl;
    eexists _, _; (split; [reflexivity|]); (split; [reflexivity|]);
    reflexivity.
Qed.

(** X12. The persisted entries do not mix: saving the session of one
    project changes neither what [getStoredState] returns for any other
    project nor the stored preview location of any project. *)
Theorem saveState_touches_one_project
    (projectId other : string) (ofs : list string) (af : option string)
    (storage : LocalStorage) :
  projectId ≠ other ->
  exists storage',
    saveState JSON_stringify projectId ofs af storage = Normal storage'
    /\ getStoredState JSON_parse storage' other
       = getStoredState JSON_parse storage other
    /\ (forall pid, PdfStore.getStoredPdfUrl storage' pid
                    = PdfStore.getStoredPdfUrl storage pid).
Proof.
  intros Hne. unfold saveState, getStoredState, getStoredState_try,
    PdfStore.getStoredPdfUrl.
  destruct storage as [items|]; simpl.
  - eexists. split; [reflexivity|]. simpl. split.
    + rewrite lookup_insert_ne; [reflexivity|].
      intros H. by apply storage_key_inj in H.
    + intros pid. rewrite lookup_insert_ne; [reflexivity|].
      apply storage_key_not_pdf_key.
  - eexists. split; [reflexivity|]. auto.
Qed.

(** X13. Round trip of the session record: after [saveState] on a
    working storage, [getStoredState] for the same project returns the
    record that was saved, with the same open files in the same order
    and the same active file, provided [JSON.parse] reads back what
    [JSON.stringify] wrote for it. *)
Theorem saveState_getStoredState_round_trip
    (projectId : string) (ofs : list string) (af : option string)
    (items : gmap string string) :
  JSON_stringify (stored_record ofs af) ≠ EmptyString ->
  JSON_parse (JSON_stringify (stored_record ofs af))
  = Normal (stored_record ofs af) ->
  exists storage',
    saveState JSON_stringify projectId ofs af (Available items) = Normal storage'
    /\ getStoredState JSON_parse storage' projectId
       = Normal (stored_record ofs af)
    /\ session_record (stored_record ofs af) = Some (ofs, af).
Proof.
  intros Hne Hrt. unfold saveState, getStoredState, getStoredState_try. simpl.
  eexists. split; [reflexivity|]. simpl. rewrite lookup_insert_eq.
  unfold truthy_str. rewrite (bool_decide_eq_false_2 _ Hne). simpl.
  rewrite Hrt. simpl. split; [reflexivity|]. apply session_record_stored.
Qed.

(** X14. Leaving a project and coming back restores its session: after
    a session operation under a project with a working storage,
    [setCurrentProject(null)] empties the open files and the active
    file, and [setCurrentProject] with the same project brings back the
    open files and the active file the store held after the operation
    (given that [JSON.parse] reads back what [JSON.stringify] wrote). *)
Theorem reopening_project_restores_session
    (op : SessionOp) (w w1 : World) (proj : Project)
    (items : gmap string string) :
  currentProject (state w) = Some proj ->
  localStorage w = Available items ->
  perform JSON_stringify op w = Normal w1 ->
  JSON_stringify
    (stored_record (openFiles (state w1)) (activeFile (state w1)))
  ≠ EmptyString ->
  JSON_parse
    (JSON_stringify
       (stored_record (openFiles (state w1)) (activeFile (state w1))))
  = Normal (stored_record (openFiles (state w1)) (activeFile (state w1))) ->
  exists w2 w3,
    setCurrentProject JSON_parse None w1 = Normal (Some w2)
    /\ openFiles (state w2) = [] /\ activeFile (state w2) = None
    /\ setCurrentProject JSON_parse (Some proj) w2 = Normal (Some w3)
    /\ openFiles (state w3) = openFiles (state w1)
    /\ activeFile (state w3) = activeFile (state w1)
    /\ currentProject (state w3) = Some proj.
Proof.
  intros Hp Hs Hop Hne Hrt.
  destruct (perform_persists op w proj items Hp Hs)
    as (w' & items' & Hop' & Hs' & Hk & _ & _).
  rewrite Hop in Hop'. injection Hop' as <-.
  eexists _, _. split; [reflexivity|]. split; [reflexivity|].
  split; [reflexivity|].
  unfold setCurrentProject, getStoredState, getStoredState_try.
  cbn [state ProjectStore.localStorage]. rewrite Hs'. simpl. rewrite Hk.
  unfold truthy_str. rewrite (bool_decide_eq_false_2 _ Hne). simpl.
  rewrite Hrt. simpl. rewrite session_record_stored.
  split; [reflexivity|]. auto.
Qed.

(** X15. Opening a file that was not open and closing it again leaves
    the open files as they were before; the active file is then the
    last of them, or none when there is none. *)
Theorem open_then_close_restores_tabs (p : string) (w : World) :
  p ∉ openFiles (state w) ->
  exists w1 w2,
    openFile JSON_stringify p w = Normal w1
    /\ closeFile JSON_stringify p w1 = Normal w2
    /\ openFiles (state w2) = openFiles (state w)
    /\ activeFile (state w2) = last_or_null (openFiles (state w)).
Proof.
  intros Hp.
  destruct (ProjectStoreFacts.openFile_state JSON_stringify p w)
    as (w1 & Hw1 & Hof1 & Haf1).
  destruct (ProjectStoreFacts.closeFile_state JSON_stringify p w1)
    as (w2 & Hw2 & Hof2 & Haf2).
  exists w1, w2. split; [exact Hw1|]. split; [exact Hw2|].
  rewrite (bool_decide_eq_false_2 _ Hp) in Hof1.
  rewrite Haf2, Hof2, Hof1, Haf1, filter_snoc_absent by exact Hp.
  by rewrite bool_decide_eq_true_2.
Qed.

(** X16. After [setFiles] with a current project, every open file and
    the active file, if any, is the path of a file of the listing, and
    the project holds the listing. *)
Theorem setFiles_leaves_only_listed
    (files : list File) (w : World) (project : Project) :
  currentProject (state w) = Some project ->
  exists w', setFiles JSON_stringify files w = Normal w'
    /\ (forall p, p ∈ openFiles (state w') -> p ∈ path <$> files)
    /\ (forall a, activeFile (state w') = Some a -> a ∈ path <$> files)
    /\ (ProjectStore.files <$> currentProject (state w')) = Some files.
Proof.
  intros Hp. unfold setFiles. rewrite Hp.
  match goal with
  | |- context [saveState ?f ?i ?o ?a ?s] =>
      destruct (ProjectStoreFacts.saveState_completes f i o a s) as [s' ->]
  end.
  eexists. split; [reflexivity|]. simpl. split; [|split; [|reflexivity]].
  - intros p Hin. apply list_elem_of_filter in Hin as [Hin _].
    by apply elem_of_list_to_set in Hin.
  - intros a. destruct (activeFile (state w)) as [a'|]; [|discriminate].
    destruct (truthy_str a'); simpl; [|discriminate].
    case_bool_decide as Hin; [|discriminate]. intros [= <-].
    by apply elem_of_list_to_set in Hin.
Qed.

(** X17. Reconciling twice with the same listing is the same as once:
    a second [setFiles] with the same files changes neither the store
    nor the storage. *)
Theorem setFiles_idempotent (files : list File) (w : World) :
  exists w', setFiles JSON_stringify files w = Normal w'
    /\ setFiles JSON_stringify files w' = Normal w'.
Proof.
  destruct w as [st storage]. unfold setFiles. cbn [state localStorage].
  destruct (currentProject st) as [proj|] eqn:Hp.
  - assert (Hact : forall (paths : gset string) o,
              match
                match o with
                | Some a => if truthy_str a && bool_decide (a ∈ paths)
                            then Some a else None
                | None => None
                end
              with
              | Some a => if truthy_str a && bool_decide (a ∈ paths)
                          then Some a else None
              | None => None
              end
              = match o with
                | Some a => if truthy_str a && bool_decide (a ∈ paths)
                            then Some a else None
                | None => None
                end).
    { intros paths [a|]; [|reflexivity].
      destruct (truthy_str a && bool_decide (a ∈ paths)) eqn:H;
        [by rewrite H | reflexivity]. }
    unfold saveState. destruct storage as [items|]; simpl.
    + eexists. split; [reflexivity|]. simpl.
      rewrite Hact, list_filter_filter.
      rewrite (list_filter_iff _ (fun p => p ∈ (list_to_set (path <$> files)
                                                 : gset string)));
        [|intros x; tauto].
      by rewrite insert_insert_eq.
    + eexists. split; [reflexivity|]. simpl.
      rewrite Hact, list_filter_filter.
      rewrite (list_filter_iff _ (fun p => p ∈ (list_to_set (path <$> files)
                                                 : gset string)));
        [|intros x; tauto].
      reflexivity.
  - exists {| state := st; localStorage := storage |}.
    split; [reflexivity|]. cbn [state]. by rewrite Hp.
Qed.

End WithJSON.

Lemma openFiles_stay_distinct_witness :
  let w := example_world (Some "a.tex") in
  NoDup (openFiles (state w))
  /\ exists w', perform show_json (OpenFile "b.tex") w = Normal w'
       /\ NoDup (openFiles (state w')).
Proof.
  assert (H : NoDup (openFiles (state (example_world (Some "a.tex")))))
    by decide_closed.
  split; [exact H|].
  exact (openFiles_stay_distinct show_json (OpenFile "b.tex")
           (example_world (Some "a.tex")) H).
Defined.

Lemma session_operations_persist_witness :
  let w := example_world (Some "a.tex") in
  currentProject (state w) = Some example_project
  /\ localStorage w = Available ∅
  /\ exists w' items',
       perform show_json (CloseFile "a.tex") w = Normal w'
       /\ localStorage w' = Available items'
       /\ items' !! storage_key (id example_project)
          = Some (show_json
                    (stored_record (openFiles (state w'))
                                   (activeFile (state w'))))
       /\ (forall k, k ≠ storage_key (id example_project) ->
                     items' !! k = (∅ : gmap string string) !! k)
       /\ id <$> currentProject (state w') = Some (id example_project).
Proof.
  split; [reflexivity|]. split; [reflexivity|].
  exact (session_operations_persist show_json (CloseFile "a.tex")
           (example_world (Some "a.tex")) example_project ∅ eq_refl eq_refl).
Defined.

Lemma saveState_touches_one_project_witness :
  "p1" ≠ "p2"
  /\ exists storage',
       saveState show_json "p1" ["a.tex"] (Some "a.tex") (Available ∅)
       = Normal storage'
       /\ getStoredState parse_json storage' "p2"
          = getStoredState parse_json (Available ∅) "p2"
       /\ (forall pid, PdfStore.getStoredPdfUrl storage' pid
                       = PdfStore.getStoredPdfUrl (Available ∅) pid).
Proof.
  assert (H : "p1" ≠ "p2") by discriminate.
  split; [exact H|].
  exact (saveState_touches_one_project parse_json show_json "p1" "p2"
           ["a.tex"] (Some "a.tex") (Available ∅) H).
Defined.

Lemma saveState_getStoredState_round_trip_witness :
  let ofs := ["a.tex"; "sections/intro.tex"] in
  let af := Some "sections/intro.tex" in
  show_json (stored_record ofs af) ≠ EmptyString
  /\ parse_json (show_json (stored_record ofs af))
     = Normal (stored_record ofs af)
  /\ exists storage',
       saveState show_json "p1" ofs af (Available ∅) = Normal storage'
       /\ getStoredState parse_json storage' "p1"
          = Normal (stored_record ofs af)
       /\ session_record (stored_record ofs af) = Some (ofs, af).
Proof.
  assert (H1 : show_json (stored_record ["a.tex"; "sections/intro.tex"]
                            (Some "sections/intro.tex")) ≠ EmptyString)
    by (vm_compute; discriminate).
  assert (H2 : parse_json
                 (show_json (stored_record ["a.tex"; "sections/intro.tex"]
                               (Some "sections/intro.tex")))
               = Normal (stored_record ["a.tex"; "sections/intro.tex"]
                           (Some "sections/intro.tex")))
    by (vm_compute; reflexivity).
  split; [exact H1|]. split; [exact H2|].
  exact (saveState_getStoredState_round_trip parse_json show_json "p1"
           _ _ ∅ H1 H2).
Defined.

Lemma reopening_project_restores_session_witness :
  let w := example_world (Some "a.tex") in
  let w1 :=
    {| state := {| currentProject := Some example_project;
                   openFiles := ["b.tex"; "c.tex"];
                   activeFile := Some "c.tex" |};
       localStorage :=
         Available {[ storage_key "p1" :=
                        show_json (stored_record ["b.tex"; "c.tex"]
                                                 (Some "c.tex")) ]} |} in
  currentProject (state w) = Some example_project
  /\ localStorage w = Available ∅
  /\ perform show_json (CloseFile "a.tex") w = Normal w1
  /\ show_json (stored_record (openFiles (state w1)) (activeFile (state w1)))
     ≠ EmptyString
  /\ parse_json
       (show_json (stored_record (openFiles (state w1)) (activeFile (state w1))))
     = Normal (stored_record (openFiles (state w1)) (activeFile (state w1)))
  /\ exists w2 w3,
       setCurrentProject parse_json None w1 = Normal (Some w2)
       /\ openFiles (state w2) = [] /\ activeFile (state w2) = None
       /\ setCurrentProject parse_json (Some example_project) w2
          = Normal (Some w3)
       /\ openFiles (state w3) = openFiles (state w1)
       /\ activeFile (state w3) = activeFile (state w1)
       /\ currentProject (state w3) = Some example_project.
Proof.
  set (w1 := {| state := {| currentProject := Some example_project;
                            openFiles := ["b.tex"; "c.tex"];
                            activeFile := Some "c.tex" |};
                localStorage :=
                  Available {[ storage_key "p1" :=
                                 show_json (stored_record ["b.tex"; "c.tex"]
                                                          (Some "c.tex")) ]} |}).
  assert (H3 : perform show_json (CloseFile "a.tex")
                 (example_world (Some "a.tex")) = Normal w1)
    by (vm_compute; reflexivity).
  assert (H4 : show_json (stored_record (openFiles (state w1))
                                        (activeFile (state w1)))
               ≠ EmptyString) by (vm_compute; discriminate).
  assert (H5 : parse_json
                 (show_json (stored_record (openFiles (state w1))
                                           (activeFile (state w1))))
               = Normal (stored_record (openFiles (state w1))
                                       (activeFile (state w1))))
    by (vm_compute; reflexivity).
  split; [reflexivity|]. split; [reflexivity|]. split; [exact H3|].
  split; [exact H4|]. split; [exact H5|].
  exact (reopening_project_restores_session parse_json show_json
           (CloseFile "a.tex") (example_world (Some "a.tex")) w1
           example_project ∅ eq_refl eq_refl H3 H4 H5).
Defined.

Lemma open_then_close_restores_tabs_witness :
  let w := example_world (Some "a.tex") in
  ("d.tex" ∉ openFiles (state w))
  /\ exists w1 w2,
       openFile show_json "d.tex" w = Normal w1
       /\ closeFile show_json "d.tex" w1 = Normal w2
       /\ openFiles (state w2) = openFiles (state w)
       /\ activeFile (state w2) = last_or_null (openFiles (state w)).
Proof.
  assert (H : "d.tex" ∉ openFiles (state (example_world (Some "a.tex"))))
    by decide_closed.
  split; [exact H|].
  exact (open_then_close_restores_tabs show_json "d.tex"
           (example_world (Some "a.tex")) H).
Defined.

Lemma setFiles_leaves_only_listed_witness :
  let w := example_world (Some "b.tex") in
  let listing := [file_at "a.tex"; file_at "c.tex"] in
  currentProject (state w) = Some example_project
  /\ exists w', setFiles show_json listing w = Normal w'
       /\ (forall p, p ∈ openFiles (state w') -> p ∈ path <$> listing)
       /\ (forall a, activeFile (state w') = Some a -> a ∈ path <$> listing)
       /\ (files <$> currentProject (state w')) = Some listing.
Proof.
  split; [reflexivity|].
  exact (setFiles_leaves_only_listed show_json
           [file_at "a.tex"; file_at "c.tex"] (example_world (Some "b.tex"))
           example_project eq_refl).
Defined.

End ProjectStoreMoreFacts.

(** ** Keyboard shortcuts: more on dispatch and registration *)

Module ShortcutsMoreFacts.
Import Shortcuts.

Lemma unregister_absent c l : c ∉ l -> unregister c l = l.
Proof.
  intros Hc. unfold unregister, indexOf.
  assert (H : list_find (fun x => x = c) l = None).
  { apply list_find_None, Forall_forall. intros x Hx ->. contradiction. }
  by rewrite H.
Qed.

Lemma unregister_middle c l later :
  c ∉ l -> unregister c (l ++ c :: later) = l ++ later.
Proof.
  intros Hc. unfold unregister, indexOf.
  assert (H : list_find (fun x => x = c) l = None).
  { apply list_find_None, Forall_forall. intros x Hx ->. contradiction. }
  rewrite (list_find_app_r _ l (c :: later) H). simpl.
  rewrite decide_True by reflexivity. simpl.
  rewrite bool_decide_eq_true_2 by lia.
  rewrite Nat2Z.id. apply delete_middle.
Qed.

(** X19. The function returned by [registerShortcut(config)] undoes the
    registration: called on the registry, also after later
    registrations, it removes [config] and leaves the other bindings in
    their order; called again when [config] is gone it changes
    nothing. This is for a config object that was not registered
    before. *)
Theorem unregister_undoes_register
    (config : ShortcutConfig) (shortcuts : list ShortcutConfig) :
  config ∉ shortcuts ->
  let registered := registerShortcut config shortcuts in
  (forall later, snd registered (fst registered ++ later) = shortcuts ++ later)
  /\ snd registered (fst registered) = shortcuts
  /\ snd registered (snd registered (fst registered)) = shortcuts.
Proof.
  intros Hc. simpl.
  assert (H1 : forall later,
             unregister config ((shortcuts ++ [config]) ++ later)
             = shortcuts ++ later).
  { intros later. rewrite <- app_assoc. simpl. by apply unregister_middle. }
  split; [exact H1|].
  assert (H2 : unregister config (shortcuts ++ [config]) = shortcuts).
  { rewrite <- (app_nil_r (shortcuts ++ [config])), H1. apply app_nil_r. }
  split; [exact H2|]. rewrite H2. by apply unregister_absent.
Qed.

Lemma unregister_undoes_register_witness :
  let config := save_binding 2 8 in
  let shortcuts := [save_binding 1 7] in
  (config ∉ shortcuts)
  /\ let registered := registerShortcut config shortcuts in
     (forall later, snd registered (fst registered ++ later) = shortcuts ++ later)
     /\ snd registered (fst registered) = shortcuts
     /\ snd registered (snd registered (fst registered)) = shortcuts.
Proof.
  assert (H : save_binding 2 8 ∉ [save_binding 1 7]) by decide_closed.
  split; [exact H|].
  exact (unregister_undoes_register (save_binding 2 8) [save_binding 1 7] H).
Defined.

Section WithLowerCase.

Variable toLowerCase : string -> string.

Lemma dispatch_loop_shape l e :
  (Forall (fun s => matches toLowerCase e s = false) l
   /\ dispatch_loop toLowerCase l e
      = {| invoked := []; defaultPrevented := false |})
  \/ exists s, s ∈ l /\ matches toLowerCase e s = true
               /\ dispatch_loop toLowerCase l e = fired s.
Proof.
  induction l as [|x l IH]; simpl.
  - left. split; [constructor | reflexivity].
  - destruct (matches toLowerCase e x) eqn:Hx.
    + right. exists x. split; [by left | auto].
    + destruct IH as [[Hall Hd] | (s & Hs & Hm & Hd)].
      * left. split; [by constructor | exact Hd].
      * right. exists s. split; [by right | auto].
Qed.

(** X18. A key event calls at most one handler, and [preventDefault] is
    called on the event exactly when a handler is: an event that no
    binding matches is left alone. *)
Theorem at_most_one_handler_per_event
    (shortcuts localShortcuts : list ShortcutConfig) (e : KeyboardEvent) :
  let d := handleKeyDown toLowerCase shortcuts localShortcuts e in
  length (invoked d) <= 1
  /\ (defaultPrevented d = true <-> invoked d ≠ [])
  /\ (invoked d = [] <->
      Forall (fun s => matches toLowerCase e s = false)
             (shortcuts ++ localShortcuts)).
Proof.
  unfold handleKeyDown. simpl.
  destruct (dispatch_loop_shape (shortcuts ++ localShortcuts) e)
    as [[Hall ->] | (s & Hs & Hm & ->)]; simpl.
  - split; [lia|]. split; [split; [discriminate | congruence]|]. tauto.
  - split; [lia|]. split; [split; [discriminate | reflexivity]|].
    split; [discriminate|]. intros Hall. rewrite Forall_forall in Hall.
    specialize (Hall s Hs). congruence.
Qed.

End WithLowerCase.

End ShortcutsMoreFacts.

(** ** Editor: more on the regions and the scroll *)

Module EditorMoreFacts.
Import Editor EditorActions.

Lemma doc_line_fields doc n l :
  doc_line doc n = Normal l ->
  (1 <= n <= lines doc)%Z
  /\ exists t, text_lines doc !! Z.to_nat (n - 1) = Some t
       /\ from l = offset_of_line (text_lines doc) (Z.to_nat (n - 1))
       /\ to l = (from l + Z.of_nat (String.length t))%Z.
Proof.
  unfold doc_line. case_bool_decide as Hn; [discriminate|].
  destruct (text_lines doc !! Z.to_nat (n - 1)) as [t|] eqn:Ht; [|discriminate].
  intros [= <-]. split; [lia|]. exists t. simpl. auto.
Qed.

Lemma offset_nonneg ls i : (0 <= offset_of_line ls i)%Z.
Proof.
  revert ls. induction i as [|i IH]; intros [|l ls]; simpl; try lia.
  specialize (IH ls). lia.
Qed.

Lemma offset_mono ls : forall i j,
  (i <= j)%nat -> (offset_of_line ls i <= offset_of_line ls j)%Z.
Proof.
  induction ls as [|l ls IH]; intros [|i] [|j] Hij; simpl; try lia.
  - pose proof (offset_nonneg ls j). lia.
  - specialize (IH i j). lia.
Qed.

Lemma offset_next ls : forall i j t,
  (i < j)%nat -> (j < length ls)%nat -> ls !! i = Some t ->
  (offset_of_line ls i + Z.of_nat (String.length t) + 1
   <= offset_of_line ls j)%Z.
Proof.
  induction ls as [|l ls IH]; intros [|i] [|j] t Hij Hj Ht; simpl in *;
    try lia.
  - injection Ht as ->. pose proof (offset_nonneg ls j). lia.
  - specialize (IH i j t ltac:(lia) ltac:(lia) Ht). lia.
Qed.

(** X20. For a comment that is not resolved and has line numbers from 1
    on, the loop builds a region that starts at or after offset 0 and,
    when [line_start] is at most [line_end], does not end before it
    starts. When the two lines are given in the wrong order (and lie in
    the document) the comment is not dropped: the region built for it
    ends before it starts, and the effect throws a [RangeError] when it
    dispatches the regions. *)
Theorem region_follows_line_order
    (doc : Text) (comments : list Comment) (c : Comment) :
  c ∈ comments -> resolved c = false ->
  (1 <= line_start c)%Z -> (1 <= line_end c)%Z ->
  exists hs h,
    collect_highlights doc comments [] = Normal hs
    /\ h ∈ hs /\ hl_id h = id c
    /\ (0 <= hl_from h)%Z
    /\ ((line_start c <= line_end c)%Z -> (hl_from h <= hl_to h)%Z)
    /\ ((line_end c < line_start c)%Z -> (line_end c < lines doc)%Z ->
        (hl_to h < hl_from h)%Z
        /\ highlights_effect (Some doc) comments = Throw RangeError).
Proof.
  intros Hin Hres Hs He.
  destruct (EditorFacts.collect_highlights_spec doc comments [])
    as (hs & Hrun & _ & Hcomplete).
  destruct (EditorFacts.comment_highlight_clamped doc c Hs He)
    as (l1 & l2 & H1 & H2 & N1 & N2 & Hhl).
  assert (Hmem : {| hl_from := from l1; hl_to := to l2; hl_id := id c |} ∈ hs)
    by (by eapply Hcomplete).
  exists hs, {| hl_from := from l1; hl_to := to l2; hl_id := id c |}.
  simpl in Hrun. split; [exact Hrun|]. split; [exact Hmem|].
  split; [reflexivity|]. cbn [hl_from hl_to].
  destruct (doc_line_fields _ _ _ H1) as (R1 & t1 & T1 & F1 & E1).
  destruct (doc_line_fields _ _ _ H2) as (R2 & t2 & T2 & F2 & E2).
  pose proof (EditorFacts.lines_pos doc) as Hpos.
  split; [rewrite F1; apply offset_nonneg|]. split.
  - intros Hle. rewrite E2, F1, F2.
    assert (Hm := offset_mono (text_lines doc)
                    (Z.to_nat (Z.min (line_start c) (lines doc) - 1))
                    (Z.to_nat (Z.min (line_end c) (lines doc) - 1))).
    specialize (Hm ltac:(lia)). lia.
  - intros Hlt Hin2.
    assert (Hinv : (to l2 < from l1)%Z).
    { rewrite E2, F1, F2.
      assert (Hn := offset_next (text_lines doc)
                      (Z.to_nat (Z.min (line_end c) (lines doc) - 1))
                      (Z.to_nat (Z.min (line_start c) (lines doc) - 1)) t2).
      unfold lines in *.
      specialize (Hn ltac:(lia) ltac:(lia) T2). lia. }
    split; [exact Hinv|].
    apply (EditorFacts.highlights_effect_throws doc comments hs _ Hrun Hmem).
    simpl. lia.
Qed.

Lemma region_follows_line_order_witness :
  let c := comment_on "c1" 3 1 false in
  let comments := [comment_on "c0" 2 2 true; c] in
  c ∈ comments /\ resolved c = false
  /\ (1 <= line_start c)%Z /\ (1 <= line_end c)%Z
  /\ exists hs h,
       collect_highlights example_doc comments [] = Normal hs
       /\ h ∈ hs /\ hl_id h = id c
       /\ (0 <= hl_from h)%Z
       /\ ((line_start c <= line_end c)%Z -> (hl_from h <= hl_to h)%Z)
       /\ ((line_end c < line_start c)%Z -> (line_end c < lines example_doc)%Z ->
           (hl_to h < hl_from h)%Z
           /\ highlights_effect (Some example_doc) comments = Throw RangeError).
Proof.
  assert (H1 : comment_on "c1" 3 1 false
               ∈ [comment_on "c0" 2 2 true; comment_on "c1" 3 1 false])
    by (right; left).
  assert (H3 : (1 <= line_start (comment_on "c1" 3 1 false))%Z) by (simpl; lia).
  assert (H4 : (1 <= line_end (comment_on "c1" 3 1 false))%Z) by (simpl; lia).
  split; [exact H1|]. split; [reflexivity|]. split; [exact H3|].
  split; [exact H4|].
  exact (region_follows_line_order example_doc _ _ H1 eq_refl H3 H4).
Defined.

Lemma comment_highlight_outcome doc c :
  ((1 <= line_start c)%Z /\ (1 <= line_end c)%Z
   /\ exists h, comment_highlight doc c = Normal h /\ hl_id h = id c)
  \/ (~ ((1 <= line_start c)%Z /\ (1 <= line_end c)%Z)
      /\ comment_highlight doc c = Throw RangeError).
Proof.
  pose proof (EditorFacts.lines_pos doc) as Hpos.
  destruct (decide (1 <= line_start c)%Z) as [Hs|Hs].
  - destruct (decide (1 <= line_end c)%Z) as [He|He].
    + left. split; [exact Hs|]. split; [exact He|].
      destruct (EditorFacts.comment_highlight_clamped doc c Hs He)
        as (l1 & l2 & _ & _ & _ & _ & Hhl).
      eexists. split; [exact Hhl | reflexivity].
    + right. split; [tauto|]. unfold comment_highlight.
      rewrite (EditorFacts.doc_line_invalid doc
                 (Z.min (line_end c) (lines doc))) by lia.
      destruct (EditorFacts.doc_line_valid doc
                  (Z.min (line_start c) (lines doc))) as (l1 & -> & _); [lia|].
      reflexivity.
  - right. split; [tauto|]. unfold comment_highlight.
    rewrite (EditorFacts.doc_line_invalid doc
               (Z.min (line_start c) (lines doc))) by lia.
    reflexivity.
Qed.

Lemma collect_highlights_ids doc comments : forall acc,
  exists hs,
    collect_highlights doc comments acc = Normal (acc ++ hs)
    /\ hl_id <$> hs
       = id <$> filter (fun c => resolved c = false
                                 /\ (1 <= line_start c)%Z
                                 /\ (1 <= line_end c)%Z) comments.
Proof.
  induction comments as [|c rest IH]; intros acc; simpl.
  - exists []. by rewrite app_nil_r.
  - destruct (resolved c) eqn:Hr.
    + destruct (IH acc) as (hs & Hrun & Hids). exists hs.
      split; [exact Hrun|]. rewrite filter_cons_False; [exact Hids|].
      intros (Hres & _). congruence.
    + destruct (comment_highlight_outcome doc c)
        as [(Hs & He & h & Hh & Hid) | (Hbad & Hh)]; rewrite Hh; simpl.
      * destruct (IH (acc ++ [h])) as (hs & Hrun & Hids).
        exists (h :: hs). rewrite Hrun, <- app_assoc.
        split; [reflexivity|]. rewrite filter_cons_True by auto.
        by rewrite !fmap_cons, Hid, Hids.
      * destruct (IH acc) as (hs & Hrun & Hids). exists hs.
        split; [exact Hrun|]. rewrite filter_cons_False; [exact Hids|].
        intros (_ & Hs & He). apply Hbad. auto.
Qed.

(** X21. The regions the loop builds are, in the order of the
    comments, one for each comment that is not resolved and whose two
    line numbers are at least 1; a comment with a line number below 1
    gets none. The effect shows exactly these regions when each of them
    covers at least one character, and throws a [RangeError] out of the
    dispatch, showing none, when one of them is empty or ends before it
    starts. *)
Theorem regions_of_unresolved_in_order (doc : Text) (comments : list Comment) :
  exists hs,
    collect_highlights doc comments [] = Normal hs
    /\ hl_id <$> hs
       = id <$> filter (fun c => resolved c = false
                                 /\ (1 <= line_start c)%Z
                                 /\ (1 <= line_end c)%Z) comments
    /\ ((forall h, h ∈ hs -> (hl_from h < hl_to h)%Z) ->
        highlights_effect (Some doc) comments = Normal (Some hs))
    /\ ((exists h, h ∈ hs /\ (hl_to h <= hl_from h)%Z) ->
        highlights_effect (Some doc) comments = Throw RangeError).
Proof.
  destruct (collect_highlights_ids doc comments []) as (hs & Hrun & Hids).
  exists hs. simpl in Hrun. split; [exact Hrun|]. split; [exact Hids|]. split.
  - intros Hall. rewrite (EditorFacts.highlights_effect_spec _ _ _ Hrun).
    destruct (forallb nonempty_region hs) eqn:Hb; [reflexivity|].
    apply not_true_iff_false in Hb. exfalso. apply Hb.
    apply forallb_forall. intros h Hh. apply bool_decide_eq_true.
    apply Hall. by apply list_elem_of_In.
  - intros (h & Hh & Hle).
    by apply (EditorFacts.highlights_effect_throws doc comments hs h).
Qed.

(** X22. The scroll to the selected comment never throws, and it uses
    the comment's [line_start] as it is: it scrolls only when there is
    a view, a selected id that is not empty and a comment with that id
    (the first one) whose line is in the document, and then to the
    start of that line; it does nothing when the line is outside the
    document (no clamping to the last line). *)
Theorem scroll_only_to_existing_line
    (view : option Text) (selected : option string) (comments : list Comment) :
  exists r,
    scroll_effect view selected comments = Normal r
    /\ (forall offset, r = Some offset ->
          exists doc sel c l,
            view = Some doc /\ selected = Some sel /\ sel ≠ EmptyString
            /\ List.find (fun c => bool_decide (id c = sel)) comments = Some c
            /\ (1 <= line_start c <= lines doc)%Z
            /\ doc_line doc (line_start c) = Normal l
            /\ offset = from l)
    /\ (forall doc sel c,
          view = Some doc -> selected = Some sel ->
          List.find (fun c => bool_decide (id c = sel)) comments = Some c ->
          (line_start c < 1 \/ lines doc < line_start c)%Z ->
          r = None).
Proof.
  unfold scroll_effect.
  destruct view as [doc|]; [|exists None; repeat split; congruence].
  destruct selected as [sel|]; [|exists None; repeat split; congruence].
  destruct (truthy_str sel) eqn:Hsel; simpl.
  2:{ exists None. split; [reflexivity|]. split; [discriminate|]. auto. }
  destruct (List.find _ comments) as [c|] eqn:Hf.
  2:{ exists None. split; [reflexivity|]. split; [discriminate|]. auto. }
  destruct (doc_line doc (line_start c)) as [l|e] eqn:Hl; simpl.
  - destruct (doc_line_fields _ _ _ Hl) as (Hrange & _).
    assert (Hne : sel ≠ EmptyString).
    { unfold truthy_str in Hsel. apply negb_true_iff in Hsel.
      by apply bool_decide_eq_false in Hsel. }
    exists (Some (from l)). split; [reflexivity|]. split.
    + intros offset [= <-]. exists doc, sel, c, l. auto 10.
    + intros doc' sel' c' [= <-] [= <-]. rewrite Hf. intros [= <-]. lia.
  - exists None. split; [reflexivity|]. split; [discriminate|]. auto.
Qed.

End EditorMoreFacts.

(** ** commentsStore and the comment panel *)

Module CommentsFacts.
Import Editor CommentsStore.

Lemma filter_all_true {A} (P : A -> Prop) `{forall x, Decision (P x)}
    (l : list A) :
  (forall x, x ∈ l -> P x) -> filter P l = l.
Proof.
  induction l as [|x l IH]; intros Hall; [reflexivity|].
  rewrite filter_cons_True by (apply Hall; by left).
  rewrite IH; [reflexivity|]. intros y Hy. apply Hall. by right.
Qed.

(** X23. A selection that names a comment of the list keeps doing so
    when a comment is added, when a comment is removed (removing the
    selected comment clears the selection) and when a comment is
    updated without changing its id. *)
Theorem selection_stays_valid (s : CommentsState) :
  selection_valid s ->
  (forall c, selection_valid (addComment c s))
  /\ (forall i, selection_valid (removeComment i s))
  /\ (forall i updates, set_id updates = None ->
        selection_valid (updateComment i updates s)).
Proof.
  intros Hv. split; [|split].
  - intros c i Hi. destruct (Hv i Hi) as (c' & Hin & Hid).
    exists c'. split; [by right | exact Hid].
  - intros i j. simpl. case_bool_decide as Hsel; [discriminate|].
    intros Hj. destruct (Hv j Hj) as (c & Hin & Hid).
    exists c. split; [|exact Hid]. apply list_elem_of_filter.
    split; [congruence | exact Hin].
  - intros i updates Hnoid j Hj. destruct (Hv j Hj) as (c & Hin & Hid).
    simpl. eexists. split; [apply list_elem_of_fmap; eexists; split;
                             [reflexivity | exact Hin]|].
    case_bool_decide; [|exact Hid]. unfold apply_update. simpl.
    by rewrite Hnoid.
Qed.

Lemma selection_stays_valid_witness :
  let s := selectComment (Some "c1")
             (setComments [comment_on "c1" 1 2 false; comment_on "c2" 3 3 false]
                          initial) in
  selection_valid s
  /\ (forall c, selection_valid (addComment c s))
  /\ (forall i, selection_valid (removeComment i s))
  /\ (forall i updates, set_id updates = None ->
        selection_valid (updateComment i updates s)).
Proof.
  assert (H : selection_valid
                (selectComment (Some "c1")
                   (setComments [comment_on "c1" 1 2 false;
                                 comment_on "c2" 3 3 false] initial))).
  { intros i [= <-]. exists (comment_on "c1" 1 2 false).
    split; [by left | reflexivity]. }
  split; [exact H|].
  exact (selection_stays_valid _ H).
Defined.

(** X24. Once a comment is resolved in the store
    ([updateComment(id, { resolved: true })]) or removed from it
    ([removeComment(id)]), the next run of the highlight effect builds
    no region for that id, and whenever that run completes it shows no
    region for that id. *)
Theorem resolved_or_removed_has_no_region
    (doc : Text) (s : CommentsState) (i : string) :
  (exists hs,
     collect_highlights doc (comments (updateComment i resolved_update s)) []
     = Normal hs
     /\ (forall h, h ∈ hs -> hl_id h ≠ i)
     /\ (forall shown,
           highlights_effect (Some doc)
             (comments (updateComment i resolved_update s))
           = Normal (Some shown) ->
           forall h, h ∈ shown -> hl_id h ≠ i))
  /\ (exists hs,
        collect_highlights doc (comments (removeComment i s)) [] = Normal hs
        /\ (forall h, h ∈ hs -> hl_id h ≠ i)
        /\ (forall shown,
              highlights_effect (Some doc) (comments (removeComment i s))
              = Normal (Some shown) ->
              forall h, h ∈ shown -> hl_id h ≠ i)).
Proof.
  assert (Hgen : forall cs,
             (forall c, c ∈ cs -> resolved c = false -> id c ≠ i) ->
             exists hs, collect_highlights doc cs [] = Normal hs
                        /\ (forall h, h ∈ hs -> hl_id h ≠ i)
                        /\ (forall shown,
                              highlights_effect (Some doc) cs
                              = Normal (Some shown) ->
                              forall h, h ∈ shown -> hl_id h ≠ i)).
  { intros cs Hcs.
    destruct (EditorFacts.collect_highlights_spec doc cs [])
      as (hs & Hrun & Hsound & _).
    assert (Hno : forall h, h ∈ hs -> hl_id h ≠ i).
    { intros h Hh. destruct (Hsound h Hh) as (c & Hin & Hres & Hhl).
      rewrite (EditorFacts.comment_highlight_id _ _ _ Hhl). by apply Hcs. }
    exists hs. simpl in Hrun. split; [exact Hrun|]. split; [exact Hno|].
    intros shown Hshown.
    apply (EditorFacts.highlights_effect_shown _ _ _ _ Hrun) in Hshown.
    injection Hshown as ->. exact Hno. }
  split; apply Hgen; simpl.
  - intros c Hin Hres. apply list_elem_of_fmap in Hin as (c0 & -> & Hin0).
    case_bool_decide as Hid; [|exact Hid]. simpl in Hres. discriminate.
  - intros c Hin _. by apply list_elem_of_filter in Hin as [Hid _].
Qed.

(** Adding a comment whose id is new and removing it again gives
    back the store as it was (the selection being on another comment or
    empty). *)
Lemma add_then_remove_restores (new : Comment) (s : CommentsState) :
  (forall c, c ∈ comments s -> id c ≠ id new) ->
  selectedCommentId s ≠ Some (id new) ->
  removeComment (id new) (addComment new s) = s.
Proof.
  intros Hfresh Hsel. destruct s as [cs sel adding pending].
  unfold removeComment, addComment. simpl in *.
  rewrite (bool_decide_eq_false_2 _ Hsel).
  rewrite filter_cons_False by (intros H; by apply H).
  by rewrite filter_all_true.
Qed.

Lemma add_then_remove_restores_witness :
  let s := setComments [comment_on "c1" 1 2 false] initial in
  let new := comment_on "c2" 3 3 false in
  (forall c, c ∈ comments s -> id c ≠ id new)
  /\ selectedCommentId s ≠ Some (id new)
  /\ removeComment (id new) (addComment new s) = s.
Proof.
  assert (H1 : forall c,
             c ∈ comments (setComments [comment_on "c1" 1 2 false] initial) ->
             id c ≠ id (comment_on "c2" 3 3 false)).
  { intros c Hc. apply list_elem_of_singleton in Hc. subst c. discriminate. }
  assert (H2 : selectedCommentId
                 (setComments [comment_on "c1" 1 2 false] initial)
               ≠ Some (id (comment_on "c2" 3 3 false))) by discriminate.
  split; [exact H1|]. split; [exact H2|].
  exact (add_then_remove_restores _ _ H1 H2).
Defined.

(** X25. The filter tabs of the comment panel split the comments: every
    comment is under exactly one of Open and Resolved, each tab keeps
    the order of the list, and All shows the whole list. *)
Theorem filter_tabs_partition (cs : list Comment) :
  filteredComments filter_all cs = cs
  /\ filteredComments filter_open cs ++ filteredComments filter_resolved cs
     ≡ₚ cs
  /\ (forall c, c ∈ filteredComments filter_open cs
                <-> c ∈ cs /\ resolved c = false)
  /\ (forall c, c ∈ filteredComments filter_resolved cs
                <-> c ∈ cs /\ resolved c = true)
  /\ (filteredComments filter_open cs) `sublist_of` cs
  /\ (filteredComments filter_resolved cs) `sublist_of` cs.
Proof.
  unfold filteredComments. split; [|split; [|split; [|split; [|split]]]].
  - induction cs as [|c cs IH]; simpl; [reflexivity | by rewrite IH].
  - induction cs as [|c cs IH]; simpl; [reflexivity|].
    destruct (resolved c); simpl.
    + rewrite <- Permutation_middle. by constructor.
    + by constructor.
  - intros c. rewrite !list_elem_of_In, filter_In. simpl.
    by rewrite negb_true_iff.
  - intros c. by rewrite !list_elem_of_In, filter_In.
  - induction cs as [|c cs IH]; simpl; [constructor|].
    destruct (resolved c); simpl; by constructor.
  - induction cs as [|c cs IH]; simpl; [constructor|].
    destruct (resolved c); simpl; by constructor.
Qed.

End CommentsFacts.

(** ** Paths *)

Module PathsFacts.
Import Paths.

Lemma append_assoc (a b c : string) : (a +:+ b) +:+ c = a +:+ (b +:+ c).
Proof.
  induction a as [|x a IH]; [reflexivity|].
  change (String x ((a +:+ b) +:+ c) = String x (a +:+ (b +:+ c))).
  by rewrite IH.
Qed.

Lemma split_slash_nonempty s : split_slash s ≠ [].
Proof.
  destruct s as [|c rest]; simpl; [discriminate|].
  case_bool_decide; [discriminate|]. by destruct (split_slash rest).
Qed.

Lemma join_cons_char c p ps :
  join_slash (String c p :: ps) = String c (join_slash (p :: ps)).
Proof. by destruct ps. Qed.

Lemma join_snoc init lst :
  init ≠ [] ->
  join_slash (init ++ [lst]) = join_slash init +:+ String slash lst.
Proof.
  induction init as [|a init IH]; [congruence|]. intros _.
  destruct init as [|b init]; [reflexivity|].
  specialize (IH ltac:(discriminate)).
  rewrite <- app_comm_cons in IH. rewrite <- !app_comm_cons.
  change (a +:+ String slash (join_slash (b :: (init ++ [lst])))
          = (a +:+ String slash (join_slash (b :: init))) +:+ String slash lst).
  rewrite IH. by rewrite append_assoc.
Qed.

Lemma parts_no_slash s : Forall (fun p => has_slash p = false) (split_slash s).
Proof.
  induction s as [|c rest IH]; simpl; [by repeat constructor|].
  case_bool_decide as Hc.
  - by constructor.
  - destruct (split_slash rest) as [|p ps].
    + constructor; [|constructor]. simpl.
      by rewrite (bool_decide_eq_false_2 _ Hc).
    + inversion IH as [|? ? Hp Hps]; subst. constructor; [|exact Hps].
      simpl. by rewrite (bool_decide_eq_false_2 _ Hc).
Qed.

Lemma split_no_slash s : has_slash s = false -> split_slash s = [s].
Proof.
  induction s as [|c rest IH]; simpl; [reflexivity|].
  intros H. apply orb_false_iff in H as [Hc Hrest].
  rewrite Hc. by rewrite (IH Hrest).
Qed.

Lemma split_with_slash s :
  has_slash s = true ->
  exists init lst, init ≠ [] /\ split_slash s = init ++ [lst].
Proof.
  induction s as [|c rest IH]; simpl; [discriminate|].
  case_bool_decide as Hc; simpl.
  - intros _. destruct (split_slash rest) as [|p ps] eqn:Hs.
    + by destruct (split_slash_nonempty rest).
    + destruct (exists_last (l := p :: ps)) as (init & lst & ->);
        [discriminate|].
      exists (EmptyString :: init), lst. split; [discriminate | reflexivity].
  - intros Hrest. destruct (IH Hrest) as (init & lst & Hne & ->).
    destruct init as [|a init]; [congruence|].
    exists (String c a :: init), lst. split; [discriminate | reflexivity].
Qed.

Lemma drop_last_snoc (init : list string) lst : drop_last (init ++ [lst]) = init.
Proof.
  unfold drop_last. rewrite length_app. simpl.
  replace (length init + 1 - 1) with (length init) by lia.
  by rewrite take_app_length.
Qed.

(** Splitting a path at its slashes and joining the parts gives
    the path back. *)
Lemma join_split_round_trip (s : string) : join_slash (split_slash s) = s.
Proof.
  induction s as [|c rest IH]; simpl; [reflexivity|].
  case_bool_decide as Hc.
  - destruct (split_slash rest) as [|p ps] eqn:Hs.
    + by destruct (split_slash_nonempty rest).
    + change (join_slash (EmptyString :: p :: ps))
        with (String slash (join_slash (p :: ps))).
      by rewrite IH, Hc.
  - destruct (split_slash rest) as [|p ps] eqn:Hs.
    + by destruct (split_slash_nonempty rest).
    + by rewrite join_cons_char, IH.
Qed.

(** X26. A path is its parent folder, a slash and its file name: the
    tab label [getFileName(path)] is always defined and has no slash in
    it; for a path with a slash, [parentPath] followed by a slash and
    the file name is the path; for a path without one, the file name is
    the path itself and the parent is the empty string (a file at the
    root of the tree). *)
Theorem path_is_parent_and_name (path : string) :
  (exists name, getFileName path = Some name /\ has_slash name = false)
  /\ (has_slash path = false ->
      getFileName path = Some path /\ parentPath path = EmptyString)
  /\ (has_slash path = true ->
      exists name, getFileName path = Some name
        /\ parentPath path +:+ String slash name = path).
Proof.
  unfold getFileName, parentPath. split; [|split].
  - destruct (last (split_slash path)) as [name|] eqn:Hl.
    + exists name. split; [reflexivity|].
      pose proof (parts_no_slash path) as Hall. rewrite Forall_forall in Hall.
      apply Hall. by apply last_Some_elem_of.
    + apply last_None in Hl. by destruct (split_slash_nonempty path).
  - intros H. by rewrite (split_no_slash _ H).
  - intros H. destruct (split_with_slash _ H) as (init & lst & Hne & Hs).
    exists lst. rewrite Hs, last_snoc, drop_last_snoc.
    split; [reflexivity|].
    rewrite <- (join_snoc init lst Hne), <- Hs. apply join_split_round_trip.
Qed.

(** The name under which the preview is downloaded is never empty
    and has no slash in it: it is the text after the last slash of the
    URL, or document.pdf when that text is empty. *)
Lemma download_filename_is_a_name (pdfUrl : string) :
  download_filename pdfUrl ≠ EmptyString
  /\ has_slash (download_filename pdfUrl) = false
  /\ (forall name, last (split_slash pdfUrl) = Some name ->
        name ≠ EmptyString -> download_filename pdfUrl = name).
Proof.
  unfold download_filename.
  destruct (last (split_slash pdfUrl)) as [name|] eqn:Hl.
  - unfold truthy_str. case_bool_decide as Hn; simpl.
    + split; [discriminate|]. split; [reflexivity|].
      intros n [= <-] Hne. contradiction.
    + split; [exact Hn|]. split; [|by intros n [= <-]].
      pose proof (parts_no_slash pdfUrl) as Hall. rewrite Forall_forall in Hall.
      apply Hall. by apply last_Some_elem_of.
  - split; [discriminate|]. split; [reflexivity | discriminate].
Qed.

End PathsFacts.

(** ** themeStore *)

Module ThemeFacts.
Import ThemeStore.

Lemma getStoredTheme_completes storage : completes (getStoredTheme storage).
Proof.
  unfold completes, getStoredTheme. destruct storage as [items|]; simpl;
    [|eauto].
  destruct (items !! STORAGE_KEY) as [text|]; simpl; [|eauto].
  repeat (case_bool_decide; simpl; [eauto|]). eauto.
Qed.

Lemma resolveTheme_not_system t p : resolveTheme t p ≠ system.
Proof. by destruct t, p. Qed.

Lemma setTheme_coherent t w :
  exists w', setTheme t w = Normal w' /\ coherent w'
             /\ theme w' = t /\ prefersDark w' = prefersDark w.
Proof.
  unfold setTheme. destruct (localStorage w); simpl;
    (eexists; split; [reflexivity|]; unfold coherent; simpl;
     split; [|auto]; split; [reflexivity|];
     split; [reflexivity | apply resolveTheme_not_system]).
Qed.

Lemma systemThemeChanged_coherent p w :
  coherent w -> coherent (systemThemeChanged p w).
Proof.
  intros (Hr & Hd & Hn). unfold systemThemeChanged, coherent.
  destruct (theme w) eqn:Ht; simpl; rewrite ?Ht; simpl in *;
    try (split; [exact Hr|]; split; [exact Hd | exact Hn]).
  split; [reflexivity|]. split; [reflexivity | by destruct p].
Qed.

Lemma run_coherent evs : forall w,
  coherent w -> exists w', run evs w = Normal w' /\ coherent w'.
Proof.
  induction evs as [|ev evs IH]; intros w Hw; simpl; [eauto|].
  destruct ev as [t|p]; simpl.
  - destruct (setTheme_coherent t w) as (w1 & -> & Hc & _). simpl.
    by apply IH.
  - by apply IH, systemThemeChanged_coherent.
Qed.

(** X27. What the page shows always agrees with the store and the
    system: from the creation of the theme store on, after any sequence
    of [setTheme] calls and changes of the system preference (and
    whatever the storage holds or does), [resolvedTheme] is the theme,
    or the system's preference when the theme is [system], it is never
    [system] itself, and the document root has the class [dark] exactly
    when it is [dark]. *)
Theorem theme_stays_coherent
    (storage : LocalStorage) (prefers : bool) (evs : list ThemeEvent) :
  exists w0 w,
    create storage prefers = Normal w0
    /\ run evs w0 = Normal w
    /\ coherent w.
Proof.
  unfold create.
  destruct (getStoredTheme_completes storage) as [t ->]. simpl.
  eexists. 
  destruct (run_coherent evs
              {| theme := t; resolvedTheme := resolveTheme t prefers;
                 darkClass := applyTheme (resolveTheme t prefers);
                 localStorage := storage; prefersDark := prefers |})
    as (w & Hrun & Hc).
  { unfold coherent. simpl. split; [reflexivity|].
    split; [reflexivity | apply resolveTheme_not_system]. }
  exists w. auto.
Qed.

(** X28. The chosen theme survives a reload when the storage works:
    after [setTheme(t)] [getStoredTheme] returns [t]. When the storage
    cannot be read, or holds no entry or a text that is none of the
    three theme names, [getStoredTheme] returns [system]. *)
Theorem theme_round_trip_and_fallback :
  (forall t w items,
      localStorage w = Available items ->
      exists w', setTheme t w = Normal w'
                 /\ getStoredTheme (localStorage w') = Normal t)
  /\ getStoredTheme Denied = Normal system
  /\ (forall items,
        (forall t, items !! STORAGE_KEY ≠ Some (theme_text t)) ->
        getStoredTheme (Available items) = Normal system).
Proof.
  split; [|split].
  - intros t w items Hs. unfold setTheme. rewrite Hs. simpl.
    eexists. split; [reflexivity|]. unfold getStoredTheme. simpl.
    rewrite lookup_insert_eq. by destruct t.
  - reflexivity.
  - intros items Hno. unfold getStoredTheme. simpl.
    destruct (items !! STORAGE_KEY) as [text|] eqn:Ht; simpl; [|reflexivity].
    case_bool_decide as H1; [subst text; by destruct (Hno light)|].
    case_bool_decide as H2; [subst text; by destruct (Hno dark)|].
    case_bool_decide as H3; [subst text; by destruct (Hno system)|].
    reflexivity.
Qed.

End ThemeFacts.

(** ** editorStore: the compile result and the persisted preview *)

Module PdfFacts.
Import EditorStore PdfStore.

(** X29. The preview of a project survives a reload: after a
    successful compile with a non-empty URL, for a non-empty project id
    and a working storage, the store shows the URL, is no longer
    compiling and has its buffers untouched, and [restorePdfUrl] for
    that project, on any later state of the store, shows the same URL
    again. *)
Theorem compiled_preview_is_restored
    (w : World) (items : gmap string string) (url pid : string)
    (errors warnings : list CompileError) (later : EditorState) :
  localStorage w = Available items ->
  url ≠ EmptyString -> pid ≠ EmptyString ->
  exists w1,
    setCompileResult true (Some url) errors warnings (Some pid) w = Normal w1
    /\ pdfUrl (editor w1) = Some url
    /\ isCompiling (editor w1) = false
    /\ fileContents (editor w1) = fileContents (editor w)
    /\ exists w2,
         restorePdfUrl pid {| editor := later; localStorage := localStorage w1 |}
         = Normal w2
         /\ pdfUrl (editor w2) = Some url
         /\ fileContents (editor w2) = fileContents later.
Proof.
  intros Hs Hu Hp. unfold setCompileResult, savePdfUrl, truthy_str.
  rewrite (bool_decide_eq_false_2 _ Hu), (bool_decide_eq_false_2 _ Hp), Hs.
  simpl. eexists. split; [reflexivity|]. simpl.
  repeat (split; [reflexivity|]).
  unfold restorePdfUrl, getStoredPdfUrl. simpl. rewrite lookup_insert_eq.
  simpl. unfold truthy_str. rewrite (bool_decide_eq_false_2 _ Hu). simpl.
  eexists. split; [reflexivity|]. auto.
Qed.

Lemma compiled_preview_is_restored_witness :
  let w := {| editor := initial; localStorage := Available ∅ |} in
  localStorage w = Available ∅
  /\ "/api/pdf/p1/main.pdf" ≠ EmptyString /\ "p1" ≠ EmptyString
  /\ exists w1,
       setCompileResult true (Some "/api/pdf/p1/main.pdf") [] [] (Some "p1") w
       = Normal w1
       /\ pdfUrl (editor w1) = Some "/api/pdf/p1/main.pdf"
       /\ isCompiling (editor w1) = false
       /\ fileContents (editor w1) = fileContents (editor w)
       /\ exists w2,
            restorePdfUrl "p1"
              {| editor := initial; localStorage := localStorage w1 |}
            = Normal w2
            /\ pdfUrl (editor w2) = Some "/api/pdf/p1/main.pdf"
            /\ fileContents (editor w2) = fileContents initial.
Proof.
  assert (H1 : "/api/pdf/p1/main.pdf" ≠ EmptyString) by discriminate.
  assert (H2 : "p1" ≠ EmptyString) by discriminate.
  split; [reflexivity|]. split; [exact H1|]. split; [exact H2|].
  exact (compiled_preview_is_restored
           {| editor := initial; localStorage := Available ∅ |} ∅
           "/api/pdf/p1/main.pdf" "p1" [] [] initial eq_refl H1 H2).
Defined.

(** X30. A failed compile leaves no preview behind. Whatever URL the
    result carries, whatever the project id (none and the empty one
    included) and whatever the storage does, the call completes and the
    store then shows no preview, holds the reported errors and warnings
    and is no longer compiling. For a project id that is not empty the
    persisted URL of that project is removed as well: a storage that
    works has lost the entry and nothing else, no URL can be read back
    for the project, and a later [restorePdfUrl] for it changes
    nothing. *)
Theorem failed_compile_clears_preview
    (w : World) (url : option string) (projectId : option string)
    (errors warnings : list CompileError) :
  exists w1,
    setCompileResult false url errors warnings projectId w = Normal w1
    /\ pdfUrl (editor w1) = None
    /\ compileErrors (editor w1) = errors
    /\ compileWarnings (editor w1) = warnings
    /\ isCompiling (editor w1) = false
    /\ (forall pid, projectId = Some pid -> pid ≠ EmptyString ->
          (forall items, localStorage w = Available items ->
             localStorage w1 = Available (delete (pdf_key pid) items))
          /\ getStoredPdfUrl (localStorage w1) pid = Normal None
          /\ (forall later,
                restorePdfUrl pid
                  {| editor := later; localStorage := localStorage w1 |}
                = Normal {| editor := later;
                            localStorage := localStorage w1 |})).
Proof.
  assert (Hrm : forall pid, pid ≠ EmptyString ->
            exists w1,
              setCompileResult false url errors warnings (Some pid) w
              = Normal w1
              /\ editor w1 = set_compile false None errors warnings (editor w)
              /\ (forall items, localStorage w = Available items ->
                    localStorage w1 = Available (delete (pdf_key pid) items))
              /\ getStoredPdfUrl (localStorage w1) pid = Normal None).
  { intros pid Hp. unfold setCompileResult, savePdfUrl, truthy_str.
    rewrite (bool_decide_eq_false_2 _ Hp). simpl.
    destruct (localStorage w) as [items|]; simpl;
      (eexists; split; [reflexivity|]; simpl; split; [reflexivity|]).
    - split; [by intros items' [= <-]|].
      unfold getStoredPdfUrl. simpl. by rewrite lookup_delete_eq.
    - split; [discriminate | reflexivity]. }
  destruct projectId as [pid|].
  - destruct (decide (pid = EmptyString)) as [He|Hp].
    + subst pid. eexists. split; [reflexivity|]. simpl.
      repeat (split; [reflexivity|]). intros pid [= <-] Hne. by destruct Hne.
    + destruct (Hrm pid Hp) as (w1 & Hrun & Hed & Hst & Hget).
      exists w1. split; [exact Hrun|]. rewrite Hed. simpl.
      repeat (split; [reflexivity|]). intros pid' [= <-] _.
      split; [exact Hst|]. split; [exact Hget|].
      intros later. unfold restorePdfUrl. simpl. by rewrite Hget.
  - eexists. split; [reflexivity|]. simpl.
    repeat (split; [reflexivity|]). discriminate.
Qed.

(** A failed compile for project [p1], whose preview was persisted. *)
Example failed_compile_example :
  let w := {| editor := initial;
              localStorage := Available {[ pdf_key "p1" := "/old.pdf" ]} |} in
  exists w1,
    setCompileResult false (Some "/new.pdf") [] [] (Some "p1") w = Normal w1
    /\ pdfUrl (editor w1) = None
    /\ localStorage w1 = Available ∅.
Proof. eexists. split; [vm_compute; reflexivity|]. split; reflexivity. Qed.

End PdfFacts.
